(** * Email-campaign delivery: a shallow embedding of [newsletter/services.py]
    and [newsletter/models.py], with the admin actions of
    [newsletter/admin.py] and the subscription view of
    [newsletter/views_backup.py], and the properties of the campaign engine.

    The relational tables are finite maps from primary key to row, the
    many-to-many relations are finite sets of primary keys, the activity
    ledger is a list in insertion order.  Service methods run in a small
    state-and-exception monad over the database. *)

From stdpp Require Import gmap strings list fin_maps pretty.
From Stdlib Require Import ZArith Lia QArith Qround Qabs Qpower Lqa.
From Stdlib Require Import Floats Uint63 Ascii.

Close Scope Q_scope.
Set Default Proof Using "Type".
Open Scope string_scope.

(** ** Python floats

    A Python [float] is an IEEE 754 binary64 number.  Its value is kept as an
    exact rational, and every operation rounds the exact result to the nearest
    number with a 53-bit significand, ties to the even significand.  The
    exponent range is not modelled: the operands below are quotients of
    counters under 2^31 and their products with 100, far from overflow and
    from the subnormal numbers. *)
Module Float.

(** The integer nearest to [q], ties to the even one. *)
Definition round_half_even (q : Q) : Z :=
  let f := Qfloor q in
  match (q - inject_Z f ?= 1 # 2)%Q with
  | Lt => f
  | Gt => (f + 1)%Z
  | Eq => if Z.even f then f else (f + 1)%Z
  end.

(** The exponent [e] with [2^e <= q < 2^(e+1)], for [0 < q]. *)
Definition binade (q : Q) : Z :=
  let e := (Z.log2 (Qnum q) - Z.log2 (Z.pos (Qden q)))%Z in
  if Qle_bool (2 ^ e)%Q q then e else (e - 1)%Z.

(** Rounding of a positive rational: the significand is the rational scaled
    into [2^52, 2^53) and rounded to an integer. *)
Definition rnd_pos (q : Q) : Q :=
  let e := (binade q - 52)%Z in
  Qred (inject_Z (round_half_even (q / 2 ^ e)) * 2 ^ e)%Q.

Definition rnd (q : Q) : Q :=
  match Qnum q with
  | Z0 => 0%Q
  | Z.pos _ => rnd_pos q
  | Z.neg _ => (- rnd_pos (- q))%Q
  end.

(** [a / b] on two [int]s (true division); [b] is not zero at any call. *)
Definition truediv (a b : Z) : Q := rnd (inject_Z a / inject_Z b).

(** [x * y] *)
Definition mul (x y : Q) : Q := rnd (x * y).

(** [round(x, ndigits)]: the exact binary value of [x] is rounded to [ndigits]
    decimals, ties to even, and the decimal is converted back to the nearest
    float. *)
Definition round (x : Q) (ndigits : Z) : Q :=
  rnd (inject_Z (round_half_even (x * 10 ^ ndigits)) / 10 ^ ndigits).

(** The value of a hardware binary64 number, to compare the model with. *)
Definition of_prim (x : float) : Q :=
  match Prim2SF x with
  | SpecFloat.S754_finite s m e =>
      Qred ((if s then -1 else 1) * inject_Z (Z.pos m) * 2 ^ e)%Q
  | _ => 0%Q
  end.

End Float.

(** ** Python strings

    A Python [str] is a sequence of code points, and [len], slicing and the
    length limit of a [varchar] column all count code points.  A [string]
    here holds the UTF-8 encoding of the text, one [ascii] per byte: a code
    point is a byte that is not a continuation byte ([10xxxxxx]) together
    with the continuation bytes that follow it.  Concatenation, comparison
    and the search for ['@'] are the same on the bytes as on the code
    points. *)
Module Str.

Definition is_continuation (c : ascii) : bool :=
  match c with
  | Ascii _ _ _ _ _ _ b6 b7 => b7 && negb b6
  end.

(** [len(s)] *)
Fixpoint len (s : string) : nat :=
  match s with
  | EmptyString => 0
  | String c rest => if is_continuation c then len rest else S (len rest)
  end.

(** [s[:n]] *)
Fixpoint take (n : nat) (s : string) : string :=
  match s with
  | EmptyString => EmptyString
  | String c rest =>
      if is_continuation c then String c (take n rest)
      else match n with
           | 0 => EmptyString
           | S n' => String c (take n' rest)
           end
  end.

(** ['\x00' in s] *)
Fixpoint has_nul (s : string) : bool :=
  match s with
  | EmptyString => false
  | String c rest => Ascii.eqb c Ascii.zero || has_nul rest
  end.

End Str.

(** ** Data model ([newsletter/models.py])

    The records carry the columns the methods below read or write.  The
    columns left out are never read by them: for a campaign the type, the
    preheader, the featured posts and the two timestamps [created_at] and
    [updated_at]; for a subscriber the token, the technical and geographic
    columns and the timestamps.  [updated_at] is declared [auto_now] on both
    models, so every [save()] refreshes it along with the columns written
    out below. *)

(** [NewsletterSubscriber]: the columns the campaign engine reads or writes.
    The primary key is the key of the table, not a field of the row. *)
Module NewsletterSubscriber.

Inductive SUBSCRIPTION_STATUS := active | unsubscribed | bounced | spam_complaint.

#[global] Instance SUBSCRIPTION_STATUS_eq_dec : EqDecision SUBSCRIPTION_STATUS.
Proof. solve_decision. Defined.

Record t := mk {
  email : string;
  first_name : string;
  last_name : string;
  status : SUBSCRIPTION_STATUS;
  subscription_interests : gset nat;
  total_emails_sent : nat;
  total_emails_opened : nat;
  total_links_clicked : nat;
  is_verified : bool
}.

(** [NewsletterSubscriber(email=..., first_name=..., last_name=...)]: every
    other column takes its declared default. *)
Definition new (email first_name last_name : string) : t :=
  mk email first_name last_name active ∅ 0 0 0 false.

(** [subscriber.total_emails_sent += 1] on the in-memory object. *)
Definition incr_total_emails_sent (s : t) : t :=
  mk (email s) (first_name s) (last_name s) (status s)
     (subscription_interests s) (total_emails_sent s + 1)
     (total_emails_opened s) (total_links_clicked s) (is_verified s).

(** [self.status = st] on the in-memory object. *)
Definition set_status (st : SUBSCRIPTION_STATUS) (s : t) : t :=
  mk (email s) (first_name s) (last_name s) st
     (subscription_interests s) (total_emails_sent s)
     (total_emails_opened s) (total_links_clicked s) (is_verified s).

(** [s.split('@')[0]]: the text before the first ['@'], all of [s] when it
    has none. *)
Fixpoint before_at (s : string) : string :=
  match s with
  | EmptyString => EmptyString
  | String c rest =>
      if Ascii.eqb c "@"%char then EmptyString else String c (before_at rest)
  end.

Definition get_full_name (self : t) : string :=
  match first_name self, last_name self with
  | String _ _, String _ _ => first_name self +:+ " " +:+ last_name self
  | String _ _, EmptyString => first_name self
  | EmptyString, _ => before_at (email self)
  end.

Definition get_engagement_rate (self : t) : Q :=
  if bool_decide (0 < total_emails_sent self) then
    Float.round
      (Float.mul
         (Float.truediv (Z.of_nat (total_emails_opened self))
                        (Z.of_nat (total_emails_sent self))) 100%Q) 1
  else 0%Q.

End NewsletterSubscriber.

Module EmailCampaign.

Inductive CAMPAIGN_STATUS := draft | scheduled | sending | sent | paused | cancelled.

#[global] Instance CAMPAIGN_STATUS_eq_dec : EqDecision CAMPAIGN_STATUS.
Proof. solve_decision. Defined.

Record t := mk {
  name : string;
  subject : string;
  content : string;
  plain_text_content : string;
  from_name : string;
  from_email : string;
  reply_to_email : string;
  send_to_all : bool;
  target_categories : gset nat;
  target_subscribers : gset nat;
  status : CAMPAIGN_STATUS;
  scheduled_at : option nat;
  sent_at : option nat;
  total_recipients : nat;
  total_sent : nat;
  total_delivered : nat;
  total_bounced : nat;
  total_opened : nat;
  total_clicked : nat;
  total_unsubscribed : nat;
  total_spam_complaints : nat
}.

(** The three attribute assignments [send_campaign] makes before the send:
    [campaign.status = 'sending'; campaign.total_recipients = n]. *)
Definition begin_sending (n : nat) (c : t) : t :=
  mk (name c) (subject c) (content c) (plain_text_content c) (from_name c)
     (from_email c) (reply_to_email c) (send_to_all c) (target_categories c)
     (target_subscribers c) sending (scheduled_at c) (sent_at c)
     n (total_sent c) (total_delivered c) (total_bounced c)
     (total_opened c) (total_clicked c) (total_unsubscribed c)
     (total_spam_complaints c).

(** ... and after it: [campaign.status = 'sent'; campaign.total_sent = k;
    campaign.sent_at = now]. *)
Definition finish_sent (k now : nat) (c : t) : t :=
  mk (name c) (subject c) (content c) (plain_text_content c) (from_name c)
     (from_email c) (reply_to_email c) (send_to_all c) (target_categories c)
     (target_subscribers c) sent (scheduled_at c) (Some now)
     (total_recipients c) k (total_delivered c) (total_bounced c)
     (total_opened c) (total_clicked c) (total_unsubscribed c)
     (total_spam_complaints c).

(** The eight result counters, in declaration order. *)
Definition counters (c : t) : list nat :=
  [total_recipients c; total_sent c; total_delivered c; total_bounced c;
   total_opened c; total_clicked c; total_unsubscribed c;
   total_spam_complaints c].

(** The attribute assignments of the admin action [duplicate_campaign]:
    [campaign.name = f"Copy of {campaign.name}"; campaign.status = 'draft';
    campaign.scheduled_at = None; campaign.sent_at = None]. *)
Definition as_copy (c : t) : t :=
  mk ("Copy of " +:+ name c) (subject c) (content c) (plain_text_content c)
     (from_name c) (from_email c) (reply_to_email c) (send_to_all c)
     (target_categories c) (target_subscribers c) draft None None
     (total_recipients c) (total_sent c) (total_delivered c) (total_bounced c)
     (total_opened c) (total_clicked c) (total_unsubscribed c)
     (total_spam_complaints c).

(** The row an INSERT stores under a new key: the columns of the object.  The
    many-to-many links live in tables of their own, keyed by the campaign, and
    a new key has none. *)
Definition without_links (c : t) : t :=
  mk (name c) (subject c) (content c) (plain_text_content c)
     (from_name c) (from_email c) (reply_to_email c) (send_to_all c)
     ∅ ∅ (status c) (scheduled_at c) (sent_at c)
     (total_recipients c) (total_sent c) (total_delivered c) (total_bounced c)
     (total_opened c) (total_clicked c) (total_unsubscribed c)
     (total_spam_complaints c).

(** [round((num / den) * 100, 1)] *)
Definition percent (num den : nat) : Q :=
  Float.round (Float.mul (Float.truediv (Z.of_nat num) (Z.of_nat den)) 100%Q) 1.

Definition get_open_rate (self : t) : Q :=
  if bool_decide (0 < total_sent self) then
    percent (total_opened self) (total_sent self)
  else 0%Q.

Definition get_click_rate (self : t) : Q :=
  if bool_decide (0 < total_sent self) then
    percent (total_clicked self) (total_sent self)
  else 0%Q.

Definition get_unsubscribe_rate (self : t) : Q :=
  if bool_decide (0 < total_sent self) then
    percent (total_unsubscribed self) (total_sent self)
  else 0%Q.

Definition get_delivery_rate (self : t) : Q :=
  if bool_decide (0 < total_recipients self) then
    percent (total_delivered self) (total_recipients self)
  else 0%Q.

End EmailCampaign.

Module NewsletterActivity.

Inductive ACTIVITY_TYPES :=
  | subscription | unsubscription | email_sent | email_opened | link_clicked
  | bounce | spam_complaint | verification_sent | email_verified.

#[global] Instance ACTIVITY_TYPES_eq_dec : EqDecision ACTIVITY_TYPES.
Proof. solve_decision. Defined.

(** [subscriber] is a non-null foreign key, [campaign] a nullable one. *)
Record t := mk {
  subscriber : nat;
  campaign : option nat;
  activity_type : ACTIVITY_TYPES;
  description : string;
  email_subject : string;
  created_at : nat
}.

End NewsletterActivity.

(** [SubscriptionForm]: the two counters [get_conversion_rate] reads. *)
Module SubscriptionForm.

Record t := mk {
  total_views : nat;
  total_submissions : nat
}.

Definition get_conversion_rate (self : t) : Q :=
  if bool_decide (0 < total_views self) then
    Float.round
      (Float.mul
         (Float.truediv (Z.of_nat (total_submissions self))
                        (Z.of_nat (total_views self))) 100%Q) 1
  else 0%Q.

End SubscriptionForm.

Module EmailTemplate.

Inductive TEMPLATE_TYPES :=
  | newsletter | welcome | blog_notification | digest | announcement | custom.

#[global] Instance TEMPLATE_TYPES_eq_dec : EqDecision TEMPLATE_TYPES.
Proof. solve_decision. Defined.

Record t := mk {
  name : string;
  template_type : TEMPLATE_TYPES;
  subject_template : string;
  is_active : bool;
  is_default : bool;
  times_used : nat
}.

(** [UPDATE ... SET is_default = False] on one row. *)
Definition clear_default (x : t) : t :=
  mk (name x) (template_type x) (subject_template x) (is_active x) false
     (times_used x).

End EmailTemplate.

(** The database: one table per model. *)
Record World := mkWorld {
  campaigns : gmap nat EmailCampaign.t;
  subscribers : gmap nat NewsletterSubscriber.t;
  activities : list NewsletterActivity.t
}.

(** A model instance in memory: its primary key ([None] until it is saved)
    and its column values. *)
Definition SubscriberObj : Type := option nat * NewsletterSubscriber.t.

(** ** Audience resolution ([NewsletterService._get_target_subscribers]) *)

Definition base_eligible (s : NewsletterSubscriber.t) : Prop :=
  NewsletterSubscriber.status s = NewsletterSubscriber.active
  ∧ NewsletterSubscriber.is_verified s = true.

#[global] Instance base_eligible_dec s : Decision (base_eligible s).
Proof. unfold base_eligible. apply _. Defined.

(** [subscription_interests__in=campaign.target_categories.all()]: the join
    keeps a subscriber that has at least one of the categories; [.distinct()]
    keeps it once. *)
Definition interested_in (cats : gset nat) (s : NewsletterSubscriber.t) : Prop :=
  NewsletterSubscriber.subscription_interests s ∩ cats ≠ ∅.

#[global] Instance interested_in_dec cats s : Decision (interested_in cats s).
Proof. unfold interested_in. apply _. Defined.

(** [qs.exists()] of a many-to-many manager: some row is linked. *)
Definition m2m_exists (links : gset nat) : bool := bool_decide (links ≠ ∅).

(** The query set, evaluated: rows of the subscriber table with their keys,
    in the order of the table (the model's default ordering is by
    subscription date, which no property below depends on). *)
Definition _get_target_subscribers (campaign : EmailCampaign.t) (w : World)
  : list (nat * NewsletterSubscriber.t) :=
  let subscribers :=
    filter (λ p, base_eligible p.2) (map_to_list (subscribers w)) in
  if negb (EmailCampaign.send_to_all campaign) then
    let subscribers :=
      if m2m_exists (EmailCampaign.target_categories campaign) then
        filter (λ p, interested_in (EmailCampaign.target_categories campaign) p.2)
               subscribers
      else subscribers in
    let subscribers :=
      if m2m_exists (EmailCampaign.target_subscribers campaign) then
        filter (λ p, p.1 ∈ EmailCampaign.target_subscribers campaign) subscribers
      else subscribers in
    subscribers
  else subscribers.

(** ** Collaborators outside the repository

    The mail transport, the clock and the storage engine are not code of the
    repository.  [Env] fixes their behaviour for one run: [transport] answers
    [None] when [email.send()] returns and [Some msg] when it raises,
    [ledger_insert] likewise for the INSERT behind
    [NewsletterActivity.objects.create].  These are the two calls of a
    delivery that can fail while the database server is up.  In this first
    account of the service the server executes every other statement: the
    SELECTs and the UPDATEs of [campaign.save()] and [subscriber.save()] on
    rows just read; the section on a server that can fail lifts that.  The
    [logger.error] calls of the handlers leave no trace in the database and
    are not modelled.  The HTML template of [_render_email_content] and the
    regular expressions of [_strip_html] are text processing; they enter as
    arbitrary functions of their arguments, so every property below holds
    for the two methods as written and for any other rendering. *)

Record EmailMultiAlternatives := mkEmail {
  msg_subject : string;
  msg_body : string;
  msg_from_email : string;
  msg_to : list string;
  msg_reply_to : option (list string);
  msg_alternative : string
}.

Record Env := mkEnv {
  DEFAULT_FROM_EMAIL : string;
  now : nat;
  _render_email_content : EmailCampaign.t → NewsletterSubscriber.t → string;
  _strip_html : string → string;
  transport : EmailMultiAlternatives → option string;
  ledger_insert : NewsletterActivity.t → option string
}.

(** ** Exceptions and the service monad *)

Inductive Exception :=
  | DoesNotExist
  | ValueError (msg : string)
  | SMTPException (msg : string)
  | DatabaseError (msg : string).

(** [str(e)] *)
Definition str (e : Exception) : string :=
  match e with
  | DoesNotExist => "EmailCampaign matching query does not exist."
  | ValueError msg | SMTPException msg | DatabaseError msg => msg
  end.

(** A computation reads and writes the database and either returns or raises.
    Writes made before a raise stay: the service opens no transaction. *)
Definition M (A : Type) : Type := World → (Exception + A) * World.

Definition ret {A} (a : A) : M A := λ w, (inr a, w).

Definition raise {A} (e : Exception) : M A := λ w, (inl e, w).

Definition bind {A B} (m : M A) (k : A → M B) : M B :=
  λ w, match m w with
       | (inr a, w') => k a w'
       | (inl e, w') => (inl e, w')
       end.

(** [try: m  except Exception as e: h e] *)
Definition try_except {A} (m : M A) (h : Exception → M A) : M A :=
  λ w, match m w with
       | (inr a, w') => (inr a, w')
       | (inl e, w') => h e w'
       end.

(** Evaluate a query against the current database. *)
Definition query {A} (q : World → A) : M A := λ w, (inr (q w), w).

Notation "x <- m ;; k" := (bind m (λ x, k))
  (at level 100, m at next level, right associativity).
Notation "m ;;; k" := (bind m (λ _, k))
  (at level 100, right associativity).

(** [a or b] on strings: the empty string is falsy. *)
Definition py_or (a b : string) : string :=
  match a with EmptyString => b | _ => a end.

(** ** What the database server stores

    The project is configured for PostgreSQL ([DATABASES] in [settings.py]).
    [save()] and [objects.create(...)] validate nothing: the values go to the
    server as they are, and the INSERT raises when one of them cannot be
    stored.  A [varchar(n)] column, which is what a [CharField] or an
    [EmailField] of [max_length] [n] declares, takes at most [n] characters;
    a [PositiveIntegerField] is a 32-bit integer column; and no string
    holding a NUL character reaches a text column. *)
Inductive Column :=
  | varchar (max_length : nat) (value : string)
  | text (value : string)
  | integer (value : nat).

Definition accepts (c : Column) : Prop :=
  match c with
  | varchar max_length value =>
      (Str.len value ≤ max_length)%nat ∧ Str.has_nul value = false
  | text value => Str.has_nul value = false
  | integer value => (Z.of_nat value ≤ 2147483647)%Z
  end.

#[global] Instance accepts_dec c : Decision (accepts c).
Proof. destruct c; simpl; apply _. Defined.

(** The exception for a value that is refused. *)
Definition refusal (c : Column) : Exception :=
  match c with
  | varchar max_length value =>
      if Str.has_nul value then
        ValueError "A string literal cannot contain NUL (0x00) characters."
      else
        DatabaseError
          ("value too long for type character varying(" +:+ pretty max_length +:+ ")")
  | text value =>
      ValueError "A string literal cannot contain NUL (0x00) characters."
  | integer value => DatabaseError "integer out of range"
  end.

(** The answer to the INSERT of a row, given as its values in the order of
    the columns: [None] when every value is taken, otherwise the exception for
    the first one that is not.  Which of several refused values the
    exception names is used by no property below. *)
Fixpoint insert_error (row : list Column) : option Exception :=
  match row with
  | [] => None
  | c :: rest => if decide (accepts c) then insert_error rest else Some (refusal c)
  end.

(** The columns of [EmailCampaign] that the record carries, with the types
    the model declares: [name] and [subject] with [max_length=200],
    [from_name] with 100, the two [EmailField]s with their default of 254,
    two text columns and eight [PositiveIntegerField]s. *)
Definition EmailCampaign_columns (c : EmailCampaign.t) : list Column :=
  [varchar 200 (EmailCampaign.name c); varchar 200 (EmailCampaign.subject c);
   text (EmailCampaign.content c); text (EmailCampaign.plain_text_content c);
   varchar 100 (EmailCampaign.from_name c); varchar 254 (EmailCampaign.from_email c);
   varchar 254 (EmailCampaign.reply_to_email c)]
  ++ (integer <$> EmailCampaign.counters c).

(** ** ORM operations *)

(** [EmailCampaign.objects.get(id=campaign_id)] *)
Definition EmailCampaign_objects_get (campaign_id : nat) : M EmailCampaign.t :=
  λ w, match campaigns w !! campaign_id with
       | Some c => (inr c, w)
       | None => (inl DoesNotExist, w)
       end.

(** [campaign.save()] of a campaign loaded under [campaign_id]: every column
    of the row is overwritten with the in-memory value. *)
Definition campaign_save (campaign_id : nat) (campaign : EmailCampaign.t) : M unit :=
  λ w, (inr (), mkWorld (<[campaign_id := campaign]> (campaigns w))
                        (subscribers w) (activities w)).

(** [subscriber.save()]: UPDATE of the row under the object's key, INSERT under
    a fresh key for an object that has none. *)
Definition subscriber_save (subscriber : SubscriberObj) : M unit :=
  λ w, let pk := match subscriber.1 with
                 | Some pk => pk
                 | None => fresh (dom (subscribers w))
                 end in
       (inr (), mkWorld (campaigns w) (<[pk := subscriber.2]> (subscribers w))
                        (activities w)).

(** [NewsletterActivity.objects.create(subscriber=..., campaign=...,
    activity_type=..., email_subject=..., description=...)].  The subscriber
    column is a non-null foreign key: a subscriber object that was never saved
    has no key to store, and the ORM refuses the save with a [ValueError]. *)
Definition NewsletterActivity_objects_create (env : Env)
    (subscriber : SubscriberObj) (campaign_id : nat)
    (activity_type : NewsletterActivity.ACTIVITY_TYPES)
    (email_subject description : string) : M unit :=
  match subscriber.1 with
  | None =>
      raise (ValueError
        "save() prohibited to prevent data loss due to unsaved related object 'subscriber'.")
  | Some pk =>
      let row := NewsletterActivity.mk pk (Some campaign_id) activity_type
                   description email_subject (now env) in
      match ledger_insert env row with
      | Some msg => raise (DatabaseError msg)
      | None => λ w, (inr (), mkWorld (campaigns w) (subscribers w)
                                      (activities w ++ [row]))
      end
  end.

(** [email.send()] *)
Definition email_send (env : Env) (email : EmailMultiAlternatives) : M unit :=
  match transport env email with
  | Some msg => raise (SMTPException msg)
  | None => ret ()
  end.

(** ** [NewsletterService] *)

(** The message [_send_email_to_subscriber] builds. *)
Definition build_email (env : Env) (campaign : EmailCampaign.t)
    (subscriber : NewsletterSubscriber.t) : EmailMultiAlternatives :=
  let subject := EmailCampaign.subject campaign in
  let html_content := _render_email_content env campaign subscriber in
  let plain_content :=
    py_or (EmailCampaign.plain_text_content campaign) (_strip_html env html_content) in
  mkEmail subject plain_content
    (py_or (EmailCampaign.from_name campaign) "HasilInvest" +:+ " <" +:+
     py_or (EmailCampaign.from_email campaign) (DEFAULT_FROM_EMAIL env) +:+ ">")
    [NewsletterSubscriber.email subscriber]
    (match EmailCampaign.reply_to_email campaign with
     | EmptyString => None
     | r => Some [r]
     end)
    html_content.

(** [_send_email_to_subscriber]: send, then log the activity; an exception is
    logged and raised again. *)
Definition _send_email_to_subscriber (env : Env) (campaign_id : nat)
    (campaign : EmailCampaign.t) (subscriber : SubscriberObj) : M unit :=
  try_except
    (let subject := EmailCampaign.subject campaign in
     let email := build_email env campaign subscriber.2 in
     email_send env email ;;;
     NewsletterActivity_objects_create env subscriber campaign_id
       NewsletterActivity.email_sent subject
       ("Email sent for campaign: " +:+ EmailCampaign.name campaign))
    (λ e, raise e).

(** The result dictionaries of the public methods. *)
Record Result := mkResult {
  success : bool;
  message : string;
  sent_count : option nat;
  total_recipients : option nat
}.

(** The [for subscriber in subscribers] loop of [send_campaign], over the rows
    the query returned.  The guarded block sends, counts, then credits and
    saves the subscriber; the handler logs and moves on to the next row. *)
Fixpoint send_loop (env : Env) (campaign_id : nat) (campaign : EmailCampaign.t)
    (rows : list (nat * NewsletterSubscriber.t)) (sent_count : nat) : M nat :=
  match rows with
  | [] => ret sent_count
  | (pk, subscriber) :: rest =>
      sent_count <-
        try_except
          (_send_email_to_subscriber env campaign_id campaign (Some pk, subscriber) ;;;
           let sent_count := sent_count + 1 in
           subscriber_save
             (Some pk, NewsletterSubscriber.incr_total_emails_sent subscriber) ;;;
           ret sent_count)
          (λ e, ret sent_count) ;;
      send_loop env campaign_id campaign rest sent_count
  end.

Definition not_draft_message (campaign : EmailCampaign.t) : string :=
  "Campaign " +:+ EmailCampaign.name campaign +:+ " is not in draft status".

Definition no_subscribers_message : string :=
  "No subscribers found for this campaign".

(** The [try] block of [send_campaign]. *)
Definition send_campaign_body (env : Env) (campaign_id : nat) : M Result :=
  campaign <- EmailCampaign_objects_get campaign_id ;;
  if bool_decide (EmailCampaign.status campaign ≠ EmailCampaign.draft) then
    raise (ValueError (not_draft_message campaign))
  else
    let subscribers := _get_target_subscribers campaign in
    nonempty <- query (λ w, bool_decide (subscribers w ≠ [])) ;;
    if negb nonempty then raise (ValueError no_subscribers_message)
    else
      count <- query (λ w, length (subscribers w)) ;;
      let campaign := EmailCampaign.begin_sending count campaign in
      campaign_save campaign_id campaign ;;;
      rows <- query subscribers ;;
      sent_count <- send_loop env campaign_id campaign rows 0 ;;
      let campaign := EmailCampaign.finish_sent sent_count (now env) campaign in
      campaign_save campaign_id campaign ;;;
      ret (mkResult true
             ("Campaign sent to " +:+ pretty sent_count +:+ " subscribers")
             (Some sent_count) (Some (EmailCampaign.total_recipients campaign))).

(** The two [except] clauses shared by [send_campaign] and [send_test_email]. *)
Definition report (r : (Exception + Result) * World) : Result * World :=
  match r with
  | (inr res, w) => (res, w)
  | (inl DoesNotExist, w) => (mkResult false "Campaign not found" None None, w)
  | (inl e, w) => (mkResult false (str e) None None, w)
  end.

Definition send_campaign (env : Env) (campaign_id : nat) (w : World)
  : Result * World :=
  report (send_campaign_body env campaign_id w).

(** The [try] block of [send_test_email]. *)
Definition send_test_email_body (env : Env) (campaign_id : nat)
    (test_email : string) : M Result :=
  campaign <- EmailCampaign_objects_get campaign_id ;;
  let test_subscriber : SubscriberObj :=
    (None, NewsletterSubscriber.new test_email "Test" "User") in
  _send_email_to_subscriber env campaign_id campaign test_subscriber ;;;
  ret (mkResult true ("Test email sent to " +:+ test_email) None None).

Definition send_test_email (env : Env) (campaign_id : nat) (test_email : string)
    (w : World) : Result * World :=
  report (send_test_email_body env campaign_id test_email w).

(** ** The service on a database server that can fail

    Above, the statements the service sends to the database server are taken
    to execute.  Each of them can fail instead: the connection drops, a lock
    times out, the server restarts, and the ORM call raises a
    [DatabaseError].  A [Server] fixes, for one run, which statements fail
    and with what message, as [Env] does for the mail transport and for the
    INSERT into the ledger.  The methods are written out again with every
    statement guarded; on a server that executes every statement they are
    the methods above. *)
Inductive Statement :=
  | SelectCampaign (campaign_id : nat)
  | ExistsTargetCategories (campaign_id : nat)
  | ExistsTargetSubscribers (campaign_id : nat)
  | ExistsAudience (campaign_id : nat)
  | CountAudience (campaign_id : nat)
  | SelectAudience (campaign_id : nat)
  | UpdateCampaign (campaign_id : nat) (row : EmailCampaign.t)
  | UpdateSubscriber (pk : nat) (row : NewsletterSubscriber.t).

Definition Server : Type := Statement → option string.

Definition execute (server : Server) (s : Statement) : M unit :=
  match server s with
  | Some msg => raise (DatabaseError msg)
  | None => ret ()
  end.

(** [_get_target_subscribers]: the two [exists()] of the many-to-many
    managers are queries of their own, made when the method runs; the query
    set it returns is lazy and costs nothing yet. *)
Definition _get_target_subscribers_on (server : Server) (campaign_id : nat)
    (campaign : EmailCampaign.t) : M (World → list (nat * NewsletterSubscriber.t)) :=
  (if negb (EmailCampaign.send_to_all campaign) then
     execute server (ExistsTargetCategories campaign_id) ;;;
     execute server (ExistsTargetSubscribers campaign_id)
   else ret ()) ;;;
  ret (_get_target_subscribers campaign).

(** The loop.  [sent_count] is a local variable: when [subscriber.save()]
    raises, the increment made before it stands, and the handler goes on to
    the next row with the new count.  The guarded block is therefore split at
    the increment: an exception before it leaves the old count, an exception
    after it the new one. *)
Fixpoint send_loop_on (server : Server) (env : Env) (campaign_id : nat)
    (campaign : EmailCampaign.t) (rows : list (nat * NewsletterSubscriber.t))
    (sent_count : nat) : M nat :=
  match rows with
  | [] => ret sent_count
  | (pk, subscriber) :: rest =>
      sent_count <-
        try_except
          (_send_email_to_subscriber env campaign_id campaign (Some pk, subscriber) ;;;
           let sent_count := sent_count + 1 in
           let subscriber := NewsletterSubscriber.incr_total_emails_sent subscriber in
           try_except
             (execute server (UpdateSubscriber pk subscriber) ;;;
              subscriber_save (Some pk, subscriber) ;;;
              ret sent_count)
             (λ e, ret sent_count))
          (λ e, ret sent_count) ;;
      send_loop_on server env campaign_id campaign rest sent_count
  end.

Definition send_campaign_body_on (server : Server) (env : Env) (campaign_id : nat)
  : M Result :=
  execute server (SelectCampaign campaign_id) ;;;
  campaign <- EmailCampaign_objects_get campaign_id ;;
  if bool_decide (EmailCampaign.status campaign ≠ EmailCampaign.draft) then
    raise (ValueError (not_draft_message campaign))
  else
    subscribers <- _get_target_subscribers_on server campaign_id campaign ;;
    execute server (ExistsAudience campaign_id) ;;;
    nonempty <- query (λ w, bool_decide (subscribers w ≠ [])) ;;
    if negb nonempty then raise (ValueError no_subscribers_message)
    else
      execute server (CountAudience campaign_id) ;;;
      count <- query (λ w, length (subscribers w)) ;;
      let campaign := EmailCampaign.begin_sending count campaign in
      execute server (UpdateCampaign campaign_id campaign) ;;;
      campaign_save campaign_id campaign ;;;
      execute server (SelectAudience campaign_id) ;;;
      rows <- query subscribers ;;
      sent_count <- send_loop_on server env campaign_id campaign rows 0 ;;
      let campaign := EmailCampaign.finish_sent sent_count (now env) campaign in
      execute server (UpdateCampaign campaign_id campaign) ;;;
      campaign_save campaign_id campaign ;;;
      ret (mkResult true
             ("Campaign sent to " +:+ pretty sent_count +:+ " subscribers")
             (Some sent_count) (Some (EmailCampaign.total_recipients campaign))).

(** The two [except] clauses, as a handler: the method returns a dictionary
    for every exception the block raises.  [Exception] holds what Python's
    [except Exception] catches; an interrupt of the interpreter is no error
    of the program and is not modelled. *)
Definition except_clauses (block : M Result) : M Result :=
  try_except block
    (λ e, match e with
          | DoesNotExist => ret (mkResult false "Campaign not found" None None)
          | e => ret (mkResult false (str e) None None)
          end).

Definition send_campaign_on (server : Server) (env : Env) (campaign_id : nat)
  : M Result :=
  except_clauses (send_campaign_body_on server env campaign_id).

Definition send_test_email_body_on (server : Server) (env : Env) (campaign_id : nat)
    (test_email : string) : M Result :=
  execute server (SelectCampaign campaign_id) ;;;
  campaign <- EmailCampaign_objects_get campaign_id ;;
  let test_subscriber : SubscriberObj :=
    (None, NewsletterSubscriber.new test_email "Test" "User") in
  _send_email_to_subscriber env campaign_id campaign test_subscriber ;;;
  ret (mkResult true ("Test email sent to " +:+ test_email) None None).

Definition send_test_email_on (server : Server) (env : Env) (campaign_id : nat)
    (test_email : string) : M Result :=
  except_clauses (send_test_email_body_on server env campaign_id test_email).

(** ** Further operations on the models *)

(** [NewsletterActivity.objects.create(...)] in general: the campaign is
    optional, the subscriber is not. *)
Definition activity_create (env : Env) (subscriber : SubscriberObj)
    (campaign : option nat) (activity_type : NewsletterActivity.ACTIVITY_TYPES)
    (email_subject description : string) : M unit :=
  match subscriber.1 with
  | None =>
      raise (ValueError
        "save() prohibited to prevent data loss due to unsaved related object 'subscriber'.")
  | Some pk =>
      let row := NewsletterActivity.mk pk campaign activity_type
                   description email_subject (now env) in
      match ledger_insert env row with
      | Some msg => raise (DatabaseError msg)
      | None => λ w, (inr (), mkWorld (campaigns w) (subscribers w)
                                      (activities w ++ [row]))
      end
  end.

(** Columns of [NewsletterSubscriber] that the campaign engine never reads,
    kept in a second table under the same primary keys. *)
Record SubscriberExtra := mkExtra {
  frequency_preference : string;
  unsubscribed_at : option nat
}.

Record Site := mkSite {
  db : World;
  extras : gmap nat SubscriberExtra
}.

(** The columns of [NewsletterSubscriber] that hold what a caller supplies:
    the [EmailField] with its default [max_length] of 254, the two names
    with 100, [frequency_preference] with 20 (its [choices] are checked by
    forms only, not by the ORM), and the three counters. *)
Definition NewsletterSubscriber_columns (s : NewsletterSubscriber.t)
    (extra : SubscriberExtra) : list Column :=
  [varchar 254 (NewsletterSubscriber.email s);
   varchar 100 (NewsletterSubscriber.first_name s);
   varchar 100 (NewsletterSubscriber.last_name s);
   varchar 20 (frequency_preference extra);
   integer (NewsletterSubscriber.total_emails_sent s);
   integer (NewsletterSubscriber.total_emails_opened s);
   integer (NewsletterSubscriber.total_links_clicked s)].

(** [NewsletterSubscriber.unsubscribe(self, reason)], for an object loaded
    under key [pk]: the status and the time are set and saved, then the
    unsubscription is logged.  Nothing is caught and no transaction is open. *)
Definition unsubscribe (env : Env) (pk : nat) (self : NewsletterSubscriber.t)
    (extra : SubscriberExtra) (reason : string) (st : Site)
  : (Exception + unit) * Site :=
  let self := NewsletterSubscriber.set_status NewsletterSubscriber.unsubscribed self in
  let extra := mkExtra (frequency_preference extra) (Some (now env)) in
  let saved :=
    mkWorld (campaigns (db st)) (<[pk := self]> (subscribers (db st)))
            (activities (db st)) in
  let logged :=
    activity_create env (Some pk, self) None NewsletterActivity.unsubscription
      EmptyString ("Unsubscribed: " +:+ reason) saved in
  (logged.1, mkSite logged.2 (<[pk := extra]> (extras st))).

(** *** The admin action [EmailCampaignAdmin.duplicate_campaign] *)

(** [campaign.save()] of an object whose key was set to [None]: INSERT under a
    key the table does not hold, unless the server refuses a value.  The
    exception leaves the action; the copies inserted before it stay, since no
    transaction is open around an admin action. *)
Definition campaign_insert (campaign : EmailCampaign.t) : M nat :=
  match insert_error (EmailCampaign_columns campaign) with
  | Some e => raise e
  | None =>
      λ w, let pk := fresh (dom (campaigns w)) in
           (inr pk, mkWorld (<[pk := EmailCampaign.without_links campaign]> (campaigns w))
                            (subscribers w) (activities w))
  end.

Fixpoint duplicate_loop (rows : list (nat * EmailCampaign.t)) : M unit :=
  match rows with
  | [] => ret ()
  | (_, campaign) :: rest =>
      campaign_insert (EmailCampaign.as_copy campaign) ;;;
      duplicate_loop rest
  end.

(** The action on a query set: the rows are read once, copied one by one, and
    the message counts the rows read. *)
Definition duplicate_campaign (queryset : World → list (nat * EmailCampaign.t))
  : M string :=
  rows <- query queryset ;;
  duplicate_loop rows ;;;
  ret (pretty (length rows) +:+ " campaigns duplicated.").

(** The query set the admin hands to an action: the rows ticked in the list. *)
Definition selected_campaigns (selected : gset nat) (w : World)
  : list (nat * EmailCampaign.t) :=
  filter (λ p, p.1 ∈ selected) (map_to_list (campaigns w)).

(** *** The admin actions [activate_subscribers] and [deactivate_subscribers] *)

(** [queryset.update(status=st)] on the subscribers ticked in the list: one
    UPDATE of the status column, with no [save()] and nothing logged. *)
Definition subscribers_update_status (selected : gset nat)
    (st : NewsletterSubscriber.SUBSCRIPTION_STATUS) : M unit :=
  λ w, (inr (),
        mkWorld (campaigns w)
          (map_imap
             (λ k s, Some (if bool_decide (k ∈ selected)
                           then NewsletterSubscriber.set_status st s else s))
             (subscribers w))
          (activities w)).

(** [queryset.count()] of the same selection. *)
Definition selected_subscribers_count (selected : gset nat) (w : World) : nat :=
  length (filter (λ p, p.1 ∈ selected) (map_to_list (subscribers w))).

Definition activate_subscribers (selected : gset nat) : M string :=
  subscribers_update_status selected NewsletterSubscriber.active ;;;
  count <- query (selected_subscribers_count selected) ;;
  ret (pretty count +:+ " subscribers activated.").

Definition deactivate_subscribers (selected : gset nat) : M string :=
  subscribers_update_status selected NewsletterSubscriber.unsubscribed ;;;
  count <- query (selected_subscribers_count selected) ;;
  ret (pretty count +:+ " subscribers deactivated.").

(** *** [EmailTemplateAdmin.save_model] *)

(** [obj] is saved under [pk], or inserted when [pk] is [None]; when it is a
    default template, the other defaults of its type are cleared first
    ([exclude(pk=None)] excludes nothing). *)
Definition save_model (pk : option nat) (obj : EmailTemplate.t)
    (templates : gmap nat EmailTemplate.t) : gmap nat EmailTemplate.t :=
  let templates :=
    if EmailTemplate.is_default obj then
      map_imap
        (λ k x,
           Some (if bool_decide
                      (EmailTemplate.template_type x = EmailTemplate.template_type obj
                       ∧ EmailTemplate.is_default x = true
                       ∧ Some k ≠ pk)
                 then EmailTemplate.clear_default x else x))
        templates
    else templates in
  let pk := match pk with
            | Some pk => pk
            | None => fresh (dom templates)
            end in
  <[pk := obj]> templates.

(** *** [NewsletterActivityAdmin.email_subject_short] *)

Definition email_subject_short (email_subject : string) : string :=
  match email_subject with
  | EmptyString => "-"
  | _ =>
      if bool_decide (30 < Str.len email_subject) then
        Str.take 30 email_subject +:+ "..."
      else email_subject
  end.

(** *** [SubscribeView.post]

    What the view takes from outside the repository: the administrator's
    address, the string methods [strip] and [lower], Django's [strip_tags],
    and the two HTML bodies, which are f-strings over the subscriber. *)
Record ViewEnv := mkViewEnv {
  ADMIN_EMAIL : string;
  str_strip : string → string;
  str_lower : string → string;
  strip_tags : string → string;
  admin_notification_html : NewsletterSubscriber.t → string;
  welcome_html : NewsletterSubscriber.t → string
}.

Record JsonResponse := mkJson {
  json_success : bool;
  json_message : string
}.

(** [send_mail(subject, message, html_message=..., from_email=...,
    recipient_list=..., fail_silently=False)] *)
Definition send_mail (env : Env) (subject message html_message from_email : string)
    (recipient_list : list string) : M unit :=
  email_send env (mkEmail subject message from_email recipient_list None html_message).

(** Both notifications catch every exception and print it. *)
Definition send_admin_notification (env : Env) (venv : ViewEnv)
    (subscriber : NewsletterSubscriber.t) : M unit :=
  try_except
    (let subject :=
       "New Newsletter Subscription - " +:+ NewsletterSubscriber.email subscriber in
     let html_content := admin_notification_html venv subscriber in
     send_mail env subject (strip_tags venv html_content) html_content
       (DEFAULT_FROM_EMAIL env) [ADMIN_EMAIL venv])
    (λ e, ret ()).

Definition send_welcome_email (env : Env) (venv : ViewEnv)
    (subscriber : NewsletterSubscriber.t) : M unit :=
  try_except
    (let subject := "Welcome to HasilInvest Newsletter!" in
     let html_content := welcome_html venv subscriber in
     send_mail env subject (strip_tags venv html_content) html_content
       (DEFAULT_FROM_EMAIL env) [NewsletterSubscriber.email subscriber])
    (λ e, ret ()).

(** [NewsletterSubscriber.objects.filter(email=email).exists()] *)
Definition email_exists (email : string) (w : World) : bool :=
  bool_decide
    (filter (λ p, NewsletterSubscriber.email p.2 = email)
            (map_to_list (subscribers w)) ≠ []).

(** The [try] block of [SubscribeView.post]; [POST] maps a field name to the
    value submitted for it.  The address is a parameter of the [exists()]
    query and is adapted like an inserted value, so a NUL character in it
    raises there.  [NewsletterSubscriber.objects.create(...)] is an INSERT of
    the values as submitted, which the server may refuse.  Both exceptions
    are caught by the view's handler. *)
Definition SubscribeView_post_body (env : Env) (venv : ViewEnv)
    (POST : gmap string string) (st : Site)
  : (Exception + JsonResponse) * Site :=
  let email := str_lower venv (str_strip venv (default EmptyString (POST !! "email"))) in
  let first_name := str_strip venv (default EmptyString (POST !! "first_name")) in
  let last_name := str_strip venv (default EmptyString (POST !! "last_name")) in
  let frequency := default "weekly" (POST !! "frequency_preference") in
  match email with
  | EmptyString => (inr (mkJson false "Email is required"), st)
  | _ =>
      if Str.has_nul email then
        (inl (ValueError "A string literal cannot contain NUL (0x00) characters."), st)
      else if email_exists email (db st) then
        (inr (mkJson false "This email is already subscribed"), st)
      else
        let pk := fresh (dom (subscribers (db st))) in
        let subscriber :=
          NewsletterSubscriber.mk email first_name last_name
            NewsletterSubscriber.active ∅ 0 0 0 true in
        match insert_error
                (NewsletterSubscriber_columns subscriber (mkExtra frequency None)) with
        | Some e => (inl e, st)
        | None =>
            let created :=
              mkWorld (campaigns (db st)) (<[pk := subscriber]> (subscribers (db st)))
                      (activities (db st)) in
            let sent :=
              (send_admin_notification env venv subscriber ;;;
               send_welcome_email env venv subscriber ;;;
               ret (mkJson true
                      ("Thank you for subscribing, "
                       +:+ NewsletterSubscriber.get_full_name subscriber
                       +:+ "! You will receive our newsletter updates."))) created in
            (sent.1, mkSite sent.2 (<[pk := mkExtra frequency None]> (extras st)))
        end
  end.

Definition SubscribeView_post (env : Env) (venv : ViewEnv)
    (POST : gmap string string) (st : Site) : JsonResponse * Site :=
  match SubscribeView_post_body env venv POST st with
  | (inr response, st') => (response, st')
  | (inl e, st') => (mkJson false "An error occurred. Please try again.", st')
  end.

(** ** The operations together

    The calls of the repository that write to the three tables: the two
    service methods, the admin actions on campaigns and on subscribers, a
    subscriber's unsubscription and the public subscription form.  An
    operation that raises leaves the writes it made. *)
Inductive Operation :=
  | SendCampaign (env : Env) (campaign_id : nat)
  | SendTestEmail (env : Env) (campaign_id : nat) (test_email : string)
  | DuplicateCampaign (selected : gset nat)
  | ActivateSubscribers (selected : gset nat)
  | DeactivateSubscribers (selected : gset nat)
  | Unsubscribe (env : Env) (pk : nat) (reason : string)
  | Subscribe (env : Env) (venv : ViewEnv) (POST : gmap string string).

Definition on_db (f : World → World) (st : Site) : Site :=
  mkSite (f (db st)) (extras st).

Definition perform (op : Operation) (st : Site) : Site :=
  match op with
  | SendCampaign env campaign_id =>
      on_db (λ w, (send_campaign env campaign_id w).2) st
  | SendTestEmail env campaign_id test_email =>
      on_db (λ w, (send_test_email env campaign_id test_email w).2) st
  | DuplicateCampaign selected =>
      on_db (λ w, (duplicate_campaign (selected_campaigns selected) w).2) st
  | ActivateSubscribers selected =>
      on_db (λ w, (activate_subscribers selected w).2) st
  | DeactivateSubscribers selected =>
      on_db (λ w, (deactivate_subscribers selected w).2) st
  | Unsubscribe env pk reason =>
      match subscribers (db st) !! pk, extras st !! pk with
      | Some self, Some extra => (unsubscribe env pk self extra reason st).2
      | _, _ => st
      end
  | Subscribe env venv POST => (SubscribeView_post env venv POST st).2
  end.

Definition perform_all (ops : list Operation) (st : Site) : Site :=
  foldl (λ st op, perform op st) st ops.

(** ** Vocabulary of the statements *)

(** The ledger row a successful delivery to [p] appends. *)
Definition activity_row (env : Env) (campaign_id : nat) (campaign : EmailCampaign.t)
    (p : nat * NewsletterSubscriber.t) : NewsletterActivity.t :=
  NewsletterActivity.mk p.1 (Some campaign_id) NewsletterActivity.email_sent
    ("Email sent for campaign: " +:+ EmailCampaign.name campaign)
    (EmailCampaign.subject campaign) (now env).

(** Delivery to [p] succeeds: the transport takes the message and the ledger
    takes the row. *)
Definition delivered (env : Env) (campaign_id : nat) (campaign : EmailCampaign.t)
    (p : nat * NewsletterSubscriber.t) : Prop :=
  transport env (build_email env campaign p.2) = None
  ∧ ledger_insert env (activity_row env campaign_id campaign p) = None.

#[global] Instance delivered_dec env campaign_id campaign p :
  Decision (delivered env campaign_id campaign p).
Proof. unfold delivered. apply _. Defined.

(** The subscriber table after [p] was credited with one more email. *)
Definition credit (table : gmap nat NewsletterSubscriber.t)
    (p : nat * NewsletterSubscriber.t) : gmap nat NewsletterSubscriber.t :=
  <[p.1 := NewsletterSubscriber.incr_total_emails_sent p.2]> table.

(** [email_sent] rows of the ledger for one campaign. *)
Definition is_email_sent_for (campaign_id : nat) (a : NewsletterActivity.t) : Prop :=
  NewsletterActivity.activity_type a = NewsletterActivity.email_sent
  ∧ NewsletterActivity.campaign a = Some campaign_id.

#[global] Instance is_email_sent_for_dec campaign_id a :
  Decision (is_email_sent_for campaign_id a).
Proof. unfold is_email_sent_for. apply _. Defined.

Definition email_sent_count (campaign_id : nat) (w : World) : nat :=
  length (filter (is_email_sent_for campaign_id) (activities w)).

(** Ledger rows that name one subscriber. *)
Definition rows_of_subscriber (pk : nat) (w : World) : list NewsletterActivity.t :=
  filter (λ a, NewsletterActivity.subscriber a = pk) (activities w).

(** The database after a completed send of the draft [c] stored under
    [campaign_id]. *)
Definition after_send (env : Env) (campaign_id : nat) (c : EmailCampaign.t)
    (w : World) : World :=
  let audience := _get_target_subscribers c w in
  let sending := EmailCampaign.begin_sending (length audience) c in
  let ok := filter (delivered env campaign_id sending) audience in
  mkWorld
    (<[campaign_id := EmailCampaign.finish_sent (length ok) (now env) sending]>
       (campaigns w))
    (foldl credit (subscribers w) ok)
    (activities w ++ (activity_row env campaign_id sending <$> ok)).

(** The columns of a campaign that a send has no business with: content,
    sender, targeting, schedule, and the counters fed by delivery reports. *)
Definition same_outside_send (c c' : EmailCampaign.t) : Prop :=
  EmailCampaign.name c' = EmailCampaign.name c
  ∧ EmailCampaign.subject c' = EmailCampaign.subject c
  ∧ EmailCampaign.content c' = EmailCampaign.content c
  ∧ EmailCampaign.plain_text_content c' = EmailCampaign.plain_text_content c
  ∧ EmailCampaign.from_name c' = EmailCampaign.from_name c
  ∧ EmailCampaign.from_email c' = EmailCampaign.from_email c
  ∧ EmailCampaign.reply_to_email c' = EmailCampaign.reply_to_email c
  ∧ EmailCampaign.send_to_all c' = EmailCampaign.send_to_all c
  ∧ EmailCampaign.target_categories c' = EmailCampaign.target_categories c
  ∧ EmailCampaign.target_subscribers c' = EmailCampaign.target_subscribers c
  ∧ EmailCampaign.scheduled_at c' = EmailCampaign.scheduled_at c
  ∧ EmailCampaign.total_delivered c' = EmailCampaign.total_delivered c
  ∧ EmailCampaign.total_bounced c' = EmailCampaign.total_bounced c
  ∧ EmailCampaign.total_opened c' = EmailCampaign.total_opened c
  ∧ EmailCampaign.total_clicked c' = EmailCampaign.total_clicked c
  ∧ EmailCampaign.total_unsubscribed c' = EmailCampaign.total_unsubscribed c
  ∧ EmailCampaign.total_spam_complaints c' = EmailCampaign.total_spam_complaints c.

(** The statements of a send up to the first write, in the order the method
    issues them, for the campaign [c] stored under [campaign_id] and an
    audience of [n]. *)
Definition statements_before_sending (campaign_id : nat) (c : EmailCampaign.t)
    (n : nat) : list Statement :=
  ([SelectCampaign campaign_id]
   ++ (if EmailCampaign.send_to_all c then []
       else [ExistsTargetCategories campaign_id; ExistsTargetSubscribers campaign_id])
   ++ [ExistsAudience campaign_id; CountAudience campaign_id;
       UpdateCampaign campaign_id (EmailCampaign.begin_sending n c)])%list.

(** The message of the first statement of the list that the server fails,
    [None] when it executes them all. *)
Fixpoint first_refusal (server : Server) (statements : list Statement)
  : option string :=
  match statements with
  | [] => None
  | s :: rest =>
      match server s with
      | Some msg => Some msg
      | None => first_refusal server rest
      end
  end.

(** The server executes the UPDATE that credits [p]. *)
Definition credited (server : Server) (p : nat * NewsletterSubscriber.t) : Prop :=
  server (UpdateSubscriber p.1 (NewsletterSubscriber.incr_total_emails_sent p.2)) = None.

#[global] Instance credited_dec server p : Decision (credited server p).
Proof. unfold credited. apply _. Defined.

(** Every value of the row is one the server takes. *)
Definition storable (row : list Column) : Prop := Forall accepts row.

(** At most one default template per template type. *)
Definition one_default_per_type (templates : gmap nat EmailTemplate.t) : Prop :=
  ∀ k1 k2 x1 x2,
    templates !! k1 = Some x1 → templates !! k2 = Some x2 →
    EmailTemplate.is_default x1 = true → EmailTemplate.is_default x2 = true →
    EmailTemplate.template_type x1 = EmailTemplate.template_type x2 →
    k1 = k2.

(** No two subscribers share an address. *)
Definition emails_unique (w : World) : Prop :=
  ∀ k1 k2 s1 s2,
    subscribers w !! k1 = Some s1 → subscribers w !! k2 = Some s2 →
    NewsletterSubscriber.email s1 = NewsletterSubscriber.email s2 →
    k1 = k2.

(** The audience as section 4.2 of the specification words it: an if / else-if
    chain over the three targeting modes, empty when none applies. *)
Definition spec_audience (campaign : EmailCampaign.t) (w : World)
  : list (nat * NewsletterSubscriber.t) :=
  let base := filter (λ p, base_eligible p.2) (map_to_list (subscribers w)) in
  if EmailCampaign.send_to_all campaign then base
  else if m2m_exists (EmailCampaign.target_categories campaign) then
    filter (λ p, interested_in (EmailCampaign.target_categories campaign) p.2) base
  else if m2m_exists (EmailCampaign.target_subscribers campaign) then
    filter (λ p, p.1 ∈ EmailCampaign.target_subscribers campaign) base
  else [].

(** [r] is the percentage [100 * num / den] to one decimal place: the float
    nearest to [d / 10] for an integer [d] within one half of [1000 * num / den]. *)
Definition percentage_to_one_decimal (num den : nat) (r : Q) : Prop :=
  ∃ d : Z,
    (Qabs (inject_Z d - 1000 * inject_Z (Z.of_nat num) / inject_Z (Z.of_nat den)) <= 1 # 2)%Q
    ∧ r = Float.rnd (inject_Z d / 10)
    ∧ (Qabs (r - inject_Z d / 10) <= inject_Z d / 10 * (1 # 9007199254740992))%Q.

(** The range of a [PositiveIntegerField]. *)
Definition counters_in_range (c : EmailCampaign.t) : Prop :=
  Forall (λ n : nat, (Z.of_nat n ≤ 2147483647)%Z) (EmailCampaign.counters c).

(** ** Scenarios *)

Module Scenario.

Definition reader (email : string) (interests : gset nat) : NewsletterSubscriber.t :=
  NewsletterSubscriber.mk email "Ada" "Reader" NewsletterSubscriber.active
    interests 0 0 0 true.

Definition lapsed (email : string) : NewsletterSubscriber.t :=
  NewsletterSubscriber.mk email "Old" "Reader" NewsletterSubscriber.unsubscribed
    ∅ 3 1 0 true.

Definition campaign (all : bool) (cats subs : gset nat)
    (st : EmailCampaign.CAMPAIGN_STATUS) : EmailCampaign.t :=
  EmailCampaign.mk "October digest" "News of the month" "<p>Hello</p>" EmptyString
    "HasilInvest" "news@example.com" EmptyString all cats subs st None None
    0 0 0 0 0 0 0 0.

(** A transport that refuses exactly the address [bad]. *)
Definition env (bad : string) : Env :=
  mkEnv "noreply@example.com" 1000
    (λ c s, EmailCampaign.content c) (λ html, html)
    (λ m, if bool_decide (msg_to m = [bad]) then Some "Connection refused" else None)
    (λ _, None).

(** One eligible subscriber interested in category 1. *)
Definition one_reader (c : EmailCampaign.t) : World :=
  mkWorld {[ 1 := c ]} {[ 1 := reader "ada@example.com" {[ 1 ]} ]} [].

(** Two eligible subscribers: the first is interested in category 1, the
    second in nothing. *)
Definition two_readers (c : EmailCampaign.t) : World :=
  mkWorld {[ 1 := c ]}
    {[ 1 := reader "ada@example.com" {[ 1 ]}; 2 := reader "bob@example.com" ∅ ]} [].

(** Five eligible subscribers and a lapsed one. *)
Definition five_readers (c : EmailCampaign.t) : World :=
  mkWorld {[ 7 := c ]}
    {[ 1 := reader "a@example.com" ∅; 2 := reader "b@example.com" ∅;
       3 := reader "c@example.com" ∅; 4 := reader "d@example.com" ∅;
       5 := reader "e@example.com" ∅; 6 := lapsed "f@example.com" ]} [].

(** No subscriber at all. *)
Definition nobody (c : EmailCampaign.t) : World := mkWorld {[ 1 := c ]} ∅ [].

Definition untargeted : EmailCampaign.t := campaign false ∅ ∅ EmailCampaign.draft.
Definition tags_and_list : EmailCampaign.t := campaign false {[ 1 ]} {[ 2 ]} EmailCampaign.draft.
Definition to_all (st : EmailCampaign.CAMPAIGN_STATUS) : EmailCampaign.t :=
  campaign true ∅ ∅ st.

(** The transport refuses subscriber 3 of [five_readers]. *)
Definition postman : Env := env "c@example.com".

(** The transport accepts everything; the ledger refuses the rows of
    subscriber 2. *)
Definition clerk : Env :=
  mkEnv "noreply@example.com" 1000
    (λ c s, EmailCampaign.content c) (λ html, html)
    (λ _, None)
    (λ a, if bool_decide (NewsletterActivity.subscriber a = 2)
          then Some "database is locked" else None).

Definition draft_world : World := five_readers (to_all EmailCampaign.draft).
Definition scheduled_world : World := five_readers (to_all EmailCampaign.scheduled).
Definition empty_world : World := nobody (to_all EmailCampaign.draft).

(** The change form of the campaign admin lists [status] among its editable
    fields (fieldset "Scheduling" of [EmailCampaignAdmin]): saving the form
    with another status rewrites that column. *)
Definition edit_status (st : EmailCampaign.CAMPAIGN_STATUS) (c : EmailCampaign.t)
  : EmailCampaign.t :=
  EmailCampaign.mk (EmailCampaign.name c) (EmailCampaign.subject c)
    (EmailCampaign.content c) (EmailCampaign.plain_text_content c)
    (EmailCampaign.from_name c) (EmailCampaign.from_email c)
    (EmailCampaign.reply_to_email c) (EmailCampaign.send_to_all c)
    (EmailCampaign.target_categories c) (EmailCampaign.target_subscribers c)
    st (EmailCampaign.scheduled_at c) (EmailCampaign.sent_at c)
    (EmailCampaign.total_recipients c) (EmailCampaign.total_sent c)
    (EmailCampaign.total_delivered c) (EmailCampaign.total_bounced c)
    (EmailCampaign.total_opened c) (EmailCampaign.total_clicked c)
    (EmailCampaign.total_unsubscribed c) (EmailCampaign.total_spam_complaints c).

(** [draft_world] after campaign 7 was sent once, the transport refusing
    subscriber 3, and then set back to draft on its change form. *)
Definition reopened : World :=
  let w := (send_campaign postman 7 draft_world).2 in
  mkWorld (edit_status EmailCampaign.draft <$> campaigns w) (subscribers w)
          (activities w).



(** Two welcome templates, the first one the default, and a newsletter
    default. *)
Definition templates : gmap nat EmailTemplate.t :=
  {[ 1 := EmailTemplate.mk "Welcome" EmailTemplate.welcome "Welcome!" true true 4;
     2 := EmailTemplate.mk "Welcome, short" EmailTemplate.welcome "Hi" true false 0;
     3 := EmailTemplate.mk "Monthly" EmailTemplate.newsletter "News" true true 9 ]}.

(** The view's surroundings: no trimming or folding of case needed for the
    addresses below. *)
Definition view_env : ViewEnv :=
  mkViewEnv "admin@example.com" (λ x, x) (λ x, x) (λ x, x)
    (λ s, NewsletterSubscriber.email s) (λ s, NewsletterSubscriber.email s).

Definition site : Site :=
  mkSite draft_world
    {[ 1 := mkExtra "weekly" None; 2 := mkExtra "weekly" None;
       3 := mkExtra "daily" None; 4 := mkExtra "weekly" None;
       5 := mkExtra "monthly" None; 6 := mkExtra "weekly" (Some 500) ]}.

(** A server that loses the connection at the last statement of a send, the
    UPDATE that marks the campaign sent, and that fails the UPDATE of
    subscriber 2 on a deadlock. *)
Definition flaky : Server :=
  λ s, match s with
       | UpdateCampaign _ row =>
           if bool_decide (EmailCampaign.status row = EmailCampaign.sent)
           then Some "server closed the connection unexpectedly" else None
       | UpdateSubscriber 2 _ => Some "deadlock detected"
       | _ => None
       end.

(** A server on which only that UPDATE of subscriber 2 fails. *)
Definition deadlocked : Server :=
  λ s, match s with
       | UpdateSubscriber 2 _ => Some "deadlock detected"
       | _ => None
       end.

(** What happens on [site] after campaign 7 went out: the campaign is
    duplicated, a visitor subscribes, a test mail is asked for, subscriber 1
    unsubscribes, and subscribers 2 and 3 are deactivated and activated
    again. *)
Definition afterwards : list Operation :=
  [DuplicateCampaign {[ 7 ]};
   Subscribe postman view_env {[ "email" := "zoe@example.com" ]};
   SendTestEmail postman 7 "qa@example.com";
   Unsubscribe postman 1 "user_request";
   DeactivateSubscribers {[ 2; 3 ]};
   ActivateSubscribers {[ 2; 3 ]}].

(** A sent campaign with its counters: 120 recipients, 100 sent, 97 delivered,
    2 bounced, 40 opened, 7 clicked, 3 unsubscribed, no complaint. *)
Definition measured : EmailCampaign.t :=
  EmailCampaign.mk "September digest" "News of the month" "<p>Hello</p>" EmptyString
    "HasilInvest" "news@example.com" EmptyString true ∅ ∅ EmailCampaign.sent
    None (Some 900) 120 100 97 2 40 7 3 0.

End Scenario.

(** * Properties *)

(** ** Audience resolution *)

Lemma m2m_exists_true (links : gset nat) : m2m_exists links = true ↔ links ≠ ∅.
Proof. unfold m2m_exists. apply bool_decide_eq_true. Qed.

Lemma m2m_exists_false (links : gset nat) : m2m_exists links = false ↔ links = ∅.
Proof.
  unfold m2m_exists. rewrite bool_decide_eq_false.
  split; [apply dec_stable | auto].
Qed.

Lemma m2m_exists_empty : m2m_exists ∅ = false.
Proof. by apply m2m_exists_false. Qed.

(** Membership in the resolved audience, for every targeting rule. *)
Lemma audience_elem (c : EmailCampaign.t) (w : World) k s :
  (k, s) ∈ _get_target_subscribers c w ↔
    subscribers w !! k = Some s ∧ base_eligible s ∧
    (EmailCampaign.send_to_all c = true ∨
     ((EmailCampaign.target_categories c = ∅
       ∨ interested_in (EmailCampaign.target_categories c) s) ∧
      (EmailCampaign.target_subscribers c = ∅
       ∨ k ∈ EmailCampaign.target_subscribers c))).
Proof.
  unfold _get_target_subscribers.
  destruct (EmailCampaign.send_to_all c); simpl.
  - rewrite list_elem_of_filter, elem_of_map_to_list. simpl. tauto.
  - destruct (m2m_exists (EmailCampaign.target_categories c)) eqn:Hc;
      [apply m2m_exists_true in Hc | apply m2m_exists_false in Hc];
      (destruct (m2m_exists (EmailCampaign.target_subscribers c)) eqn:Hs;
       [apply m2m_exists_true in Hs | apply m2m_exists_false in Hs]);
      rewrite ?list_elem_of_filter, elem_of_map_to_list; simpl;
      intuition (try done; try congruence).
Qed.

(** The audience lists every subscriber once. *)
Lemma audience_NoDup (c : EmailCampaign.t) (w : World) :
  NoDup (_get_target_subscribers c w).*1.
Proof.
  assert (Hsub : _get_target_subscribers c w `sublist_of` map_to_list (subscribers w)).
  { unfold _get_target_subscribers.
    repeat case_match; repeat (etrans; [apply sublist_filter|]); done. }
  eapply sublist_NoDup; [apply (NoDup_fst_map_to_list (subscribers w))|].
  by apply fmap_sublist.
Qed.

(** Resolution reads the subscriber table only. *)
Lemma audience_frame (c : EmailCampaign.t) (w w' : World) :
  subscribers w' = subscribers w →
  _get_target_subscribers c w' = _get_target_subscribers c w.
Proof. unfold _get_target_subscribers. by intros ->. Qed.

(** C1 (as the code has it): with [send_to_all] false, no interest tag and no
    explicit list, no filter narrows the base set: the audience is every
    active, verified subscriber, and resolution raises no error. *)
Theorem untargeted_audience_is_base_set (c : EmailCampaign.t) (w : World) :
  EmailCampaign.send_to_all c = false →
  EmailCampaign.target_categories c = ∅ →
  EmailCampaign.target_subscribers c = ∅ →
  _get_target_subscribers c w
    = filter (λ p, base_eligible p.2) (map_to_list (subscribers w))
  ∧ ∀ k s, subscribers w !! k = Some s → base_eligible s →
           (k, s) ∈ _get_target_subscribers c w.
Proof.
  intros Hall Hcats Hsubs. split.
  - unfold _get_target_subscribers.
    by rewrite Hall, Hcats, Hsubs, m2m_exists_empty.
  - intros k s Hk Hs. apply audience_elem. rewrite Hcats, Hsubs. tauto.
Qed.

Lemma untargeted_audience_witness :
  _get_target_subscribers Scenario.untargeted (Scenario.one_reader Scenario.untargeted)
    = filter (λ p, base_eligible p.2)
        (map_to_list (subscribers (Scenario.one_reader Scenario.untargeted)))
  ∧ ∀ k s, subscribers (Scenario.one_reader Scenario.untargeted) !! k = Some s →
           base_eligible s →
           (k, s) ∈ _get_target_subscribers Scenario.untargeted
                      (Scenario.one_reader Scenario.untargeted).
Proof.
  apply (untargeted_audience_is_base_set Scenario.untargeted
           (Scenario.one_reader Scenario.untargeted)); reflexivity.
Defined.

(** C1, counterexample: an untargeted campaign and one eligible subscriber;
    the audience is that subscriber, not the empty set. *)
Lemma untargeted_audience_not_empty :
  EmailCampaign.send_to_all Scenario.untargeted = false
  ∧ EmailCampaign.target_categories Scenario.untargeted = ∅
  ∧ EmailCampaign.target_subscribers Scenario.untargeted = ∅
  ∧ _get_target_subscribers Scenario.untargeted (Scenario.one_reader Scenario.untargeted)
      = [(1, Scenario.reader "ada@example.com" {[ 1 ]})]
  ∧ spec_audience Scenario.untargeted (Scenario.one_reader Scenario.untargeted) = [].
Proof. repeat split; vm_compute; reflexivity. Qed.

(** C4 (as the code has it): the two targeting filters are two independent
    [if] statements, so they conjoin.  With [send_to_all] false and interest
    tags present, the audience is the base-eligible subscribers having at
    least one of the tags, narrowed further to the explicit list when one is
    given; with no tag and an explicit list, it is the base-eligible
    subscribers of the list. *)
Theorem targeting_filters_conjoin (c : EmailCampaign.t) (w : World) :
  EmailCampaign.send_to_all c = false →
  (EmailCampaign.target_categories c ≠ ∅ →
   ∀ k s, (k, s) ∈ _get_target_subscribers c w ↔
     subscribers w !! k = Some s ∧ base_eligible s
     ∧ interested_in (EmailCampaign.target_categories c) s
     ∧ (EmailCampaign.target_subscribers c = ∅
        ∨ k ∈ EmailCampaign.target_subscribers c))
  ∧ (EmailCampaign.target_categories c = ∅ →
     EmailCampaign.target_subscribers c ≠ ∅ →
     ∀ k s, (k, s) ∈ _get_target_subscribers c w ↔
       subscribers w !! k = Some s ∧ base_eligible s
       ∧ k ∈ EmailCampaign.target_subscribers c).
Proof.
  intros Hall. split.
  - intros Hcats k s. rewrite audience_elem, Hall.
    intuition (try done; try congruence).
  - intros Hcats Hsubs k s. rewrite audience_elem, Hall.
    intuition (try done; try congruence).
Qed.

Lemma targeting_filters_conjoin_witness :
  EmailCampaign.send_to_all Scenario.tags_and_list = false
  ∧ (EmailCampaign.target_categories Scenario.tags_and_list ≠ ∅ →
     ∀ k s, (k, s) ∈ _get_target_subscribers Scenario.tags_and_list
                        (Scenario.two_readers Scenario.tags_and_list) ↔
       subscribers (Scenario.two_readers Scenario.tags_and_list) !! k = Some s
       ∧ base_eligible s
       ∧ interested_in (EmailCampaign.target_categories Scenario.tags_and_list) s
       ∧ (EmailCampaign.target_subscribers Scenario.tags_and_list = ∅
          ∨ k ∈ EmailCampaign.target_subscribers Scenario.tags_and_list)).
Proof.
  split; [reflexivity|].
  apply (targeting_filters_conjoin Scenario.tags_and_list
           (Scenario.two_readers Scenario.tags_and_list)).
  reflexivity.
Defined.

(** C4, counterexample: tag 1 and explicit list {2} on one campaign, and two
    eligible subscribers, of which subscriber 1 has the tag and subscriber 2
    is the one listed.  The else-if reading stops at the tags and resolves
    subscriber 1; the code applies the list filter as well and resolves
    nobody. *)
Lemma tags_do_not_shadow_explicit_list :
  EmailCampaign.send_to_all Scenario.tags_and_list = false
  ∧ EmailCampaign.target_categories Scenario.tags_and_list ≠ ∅
  ∧ EmailCampaign.target_subscribers Scenario.tags_and_list = {[ 2 ]}
  ∧ subscribers (Scenario.two_readers Scenario.tags_and_list) !! 2
      = Some (Scenario.reader "bob@example.com" ∅)
  ∧ spec_audience Scenario.tags_and_list (Scenario.two_readers Scenario.tags_and_list)
      = [(1, Scenario.reader "ada@example.com" {[ 1 ]})]
  ∧ _get_target_subscribers Scenario.tags_and_list
      (Scenario.two_readers Scenario.tags_and_list) = [].
Proof. repeat split; vm_compute; done. Qed.

(** C5: whatever the targeting rule, every member of the resolved audience is
    a row of the subscriber table with [status = 'active'] and
    [is_verified = True]; no other subscriber is ever in it. *)
Theorem audience_is_active_and_verified (c : EmailCampaign.t) (w : World) :
  Forall (λ p, subscribers w !! p.1 = Some p.2
               ∧ NewsletterSubscriber.status p.2 = NewsletterSubscriber.active
               ∧ NewsletterSubscriber.is_verified p.2 = true)
         (_get_target_subscribers c w).
Proof.
  apply Forall_forall. intros [k s] Hin.
  apply audience_elem in Hin as (Hrow & [Hactive Hverified] & _). done.
Qed.

(** ** The send loop *)

Section SendLoop.
Context (env : Env) (campaign_id : nat) (campaign : EmailCampaign.t).

(** One guarded iteration: a delivery that fails leaves the database and the
    count as they were; one that succeeds appends the ledger row, credits the
    subscriber and counts. *)
Lemma send_loop_cons p rest n w :
  send_loop env campaign_id campaign (p :: rest) n w =
    if decide (delivered env campaign_id campaign p) then
      send_loop env campaign_id campaign rest (n + 1)
        (mkWorld (campaigns w) (credit (subscribers w) p)
                 (activities w ++ [activity_row env campaign_id campaign p]))
    else send_loop env campaign_id campaign rest n w.
Proof.
  destruct p as [pk s].
  destruct (decide (delivered env campaign_id campaign (pk, s))) as [[Ht Hl]|Hno];
    unfold delivered, activity_row in *; simpl in *;
    unfold bind at 1, try_except at 1, bind at 1;
    unfold _send_email_to_subscriber, try_except, bind, email_send,
      NewsletterActivity_objects_create, raise, ret; simpl.
  - by rewrite Ht, Hl.
  - destruct (transport env (build_email env campaign s)) eqn:Ht; simpl; [done|].
    destruct (ledger_insert env _) eqn:Hl; simpl; [done|].
    by destruct Hno.
Qed.

(** The whole loop never raises; it counts, credits and logs exactly the
    recipients whose delivery succeeded, in order. *)
Lemma send_loop_spec rows n w :
  send_loop env campaign_id campaign rows n w =
    (inr (n + length (filter (delivered env campaign_id campaign) rows)),
     mkWorld (campaigns w)
       (foldl credit (subscribers w) (filter (delivered env campaign_id campaign) rows))
       (activities w ++
          (activity_row env campaign_id campaign
             <$> filter (delivered env campaign_id campaign) rows))).
Proof.
  revert n w. induction rows as [|p rest IH]; intros n w.
  - simpl. unfold ret. rewrite Nat.add_0_r, app_nil_r. by destruct w.
  - rewrite send_loop_cons, filter_cons. case_decide.
    + rewrite IH. simpl. rewrite <- app_assoc. simpl.
      do 2 f_equal. lia.
    + by rewrite IH.
Qed.

End SendLoop.

(** Crediting a list of distinct subscribers: each one listed gets its own
    increment, every other row is untouched. *)
Lemma foldl_credit_other (l : list (nat * NewsletterSubscriber.t)) table k :
  k ∉ l.*1 → foldl credit table l !! k = table !! k.
Proof.
  revert table. induction l as [|[k' s'] l IH]; intros table Hk; [done|].
  rewrite fmap_cons, not_elem_of_cons in Hk. destruct Hk as [Hne Hk].
  simpl. rewrite IH by done.
  unfold credit. simpl. by rewrite lookup_insert_ne.
Qed.

Lemma foldl_credit_member (l : list (nat * NewsletterSubscriber.t)) table k s :
  NoDup l.*1 → (k, s) ∈ l →
  foldl credit table l !! k = Some (NewsletterSubscriber.incr_total_emails_sent s).
Proof.
  revert table. induction l as [|[k' s'] l IH]; intros table Hnd Hin.
  { by apply elem_of_nil in Hin. }
  simpl in *. apply NoDup_cons in Hnd as [Hk' Hnd].
  apply elem_of_cons in Hin as [[= <- <-] | Hin].
  - rewrite foldl_credit_other by done. unfold credit. simpl.
    by rewrite lookup_insert_eq.
  - by apply IH.
Qed.

(** ** [send_campaign], case by case *)

Section SendCampaign.
Context (env : Env) (campaign_id : nat) (w : World).

Lemma send_campaign_body_not_found :
  campaigns w !! campaign_id = None →
  send_campaign_body env campaign_id w = (inl DoesNotExist, w).
Proof.
  intros Hget. unfold send_campaign_body, bind, EmailCampaign_objects_get.
  by rewrite Hget.
Qed.

Lemma send_campaign_body_not_draft c :
  campaigns w !! campaign_id = Some c →
  EmailCampaign.status c ≠ EmailCampaign.draft →
  send_campaign_body env campaign_id w
    = (inl (ValueError (not_draft_message c)), w).
Proof.
  intros Hget Hst. unfold send_campaign_body, bind, EmailCampaign_objects_get.
  rewrite Hget. by rewrite bool_decide_eq_true_2.
Qed.

Lemma send_campaign_body_empty c :
  campaigns w !! campaign_id = Some c →
  EmailCampaign.status c = EmailCampaign.draft →
  _get_target_subscribers c w = [] →
  send_campaign_body env campaign_id w
    = (inl (ValueError no_subscribers_message), w).
Proof.
  intros Hget Hst Hempty.
  unfold send_campaign_body, bind, EmailCampaign_objects_get, query.
  rewrite Hget. rewrite bool_decide_eq_false_2 by (by intros []).
  rewrite Hempty. by rewrite bool_decide_eq_false_2 by (by intros []).
Qed.

(** A draft with a non-empty audience is sent: the call returns the success
    dictionary, and the database afterwards is the one before with the
    campaign row rewritten, the delivered recipients credited and their
    ledger rows appended. *)
Lemma send_campaign_body_sent c :
  campaigns w !! campaign_id = Some c →
  EmailCampaign.status c = EmailCampaign.draft →
  _get_target_subscribers c w ≠ [] →
  let audience := _get_target_subscribers c w in
  let sending := EmailCampaign.begin_sending (length audience) c in
  let ok := filter (delivered env campaign_id sending) audience in
  send_campaign_body env campaign_id w =
    (inr (mkResult true
            ("Campaign sent to " +:+ pretty (length ok) +:+ " subscribers")
            (Some (length ok)) (Some (length audience))),
     mkWorld
       (<[campaign_id := EmailCampaign.finish_sent (length ok) (now env) sending]>
          (campaigns w))
       (foldl credit (subscribers w) ok)
       (activities w ++ (activity_row env campaign_id sending <$> ok))).
Proof.
  intros Hget Hst Hne audience sending ok.
  unfold send_campaign_body, bind at 1, EmailCampaign_objects_get.
  rewrite Hget. rewrite bool_decide_eq_false_2 by (by intros []).
  unfold bind at 1, query at 1. rewrite bool_decide_eq_true_2 by done. simpl.
  unfold bind at 1, query at 1.
  unfold bind at 1, campaign_save at 1.
  unfold bind at 1, query at 1.
  rewrite (audience_frame c _ w) by done.
  unfold bind at 1. rewrite send_loop_spec. simpl.
  unfold bind, campaign_save, ret. simpl.
  by rewrite insert_insert_eq.
Qed.

End SendCampaign.

(** ** Rejections *)

Lemma no_subscribers_is_not_not_draft c :
  no_subscribers_message ≠ not_draft_message c.
Proof. unfold no_subscribers_message, not_draft_message. simpl. discriminate. Qed.

(** C2 (as the code has it): on an existing campaign [send_campaign] raises
    its state error exactly when the status is not ['draft'] (a scheduled
    campaign is rejected like any other non-draft one), and the rejection
    leaves the whole database, counters included, as it was. *)
Theorem send_campaign_rejects_unless_draft env campaign_id w c :
  campaigns w !! campaign_id = Some c →
  ((send_campaign_body env campaign_id w).1 = inl (ValueError (not_draft_message c))
   ↔ EmailCampaign.status c ≠ EmailCampaign.draft)
  ∧ (EmailCampaign.status c ≠ EmailCampaign.draft →
     send_campaign env campaign_id w
       = (mkResult false (not_draft_message c) None None, w)).
Proof.
  intros Hget. split; [split|].
  - intros Hout Hst.
    destruct (decide (_get_target_subscribers c w = [])) as [Hempty|Hne].
    + rewrite (send_campaign_body_empty env _ _ c) in Hout by done.
      cbn [fst] in Hout.
      apply (no_subscribers_is_not_not_draft c). congruence.
    + by rewrite (send_campaign_body_sent env _ _ c) in Hout.
  - intros Hst. by rewrite (send_campaign_body_not_draft env _ _ c).
  - intros Hst. unfold send_campaign.
    by rewrite (send_campaign_body_not_draft env _ _ c).
Qed.

Lemma send_campaign_rejects_unless_draft_witness :
  campaigns Scenario.scheduled_world !! 7 = Some (Scenario.to_all EmailCampaign.scheduled)
  ∧ ((send_campaign_body Scenario.postman 7 Scenario.scheduled_world).1
       = inl (ValueError (not_draft_message (Scenario.to_all EmailCampaign.scheduled)))
     ↔ EmailCampaign.status (Scenario.to_all EmailCampaign.scheduled)
         ≠ EmailCampaign.draft)
  ∧ (EmailCampaign.status (Scenario.to_all EmailCampaign.scheduled) ≠ EmailCampaign.draft →
     send_campaign Scenario.postman 7 Scenario.scheduled_world
       = (mkResult false (not_draft_message (Scenario.to_all EmailCampaign.scheduled))
            None None, Scenario.scheduled_world)).
Proof.
  split; [reflexivity|].
  apply (send_campaign_rejects_unless_draft Scenario.postman 7 Scenario.scheduled_world
           (Scenario.to_all EmailCampaign.scheduled)).
  reflexivity.
Defined.

(** C2, counterexample: campaign 7 is scheduled and five subscribers are
    eligible; [send_campaign] raises the state error, reports failure and
    leaves the campaign scheduled. *)
Lemma scheduled_campaign_is_rejected :
  campaigns Scenario.scheduled_world !! 7 = Some (Scenario.to_all EmailCampaign.scheduled)
  ∧ EmailCampaign.status (Scenario.to_all EmailCampaign.scheduled) = EmailCampaign.scheduled
  ∧ length (_get_target_subscribers (Scenario.to_all EmailCampaign.scheduled)
              Scenario.scheduled_world) = 5
  ∧ send_campaign_body Scenario.postman 7 Scenario.scheduled_world
      = (inl (ValueError "Campaign October digest is not in draft status"),
         Scenario.scheduled_world)
  ∧ send_campaign Scenario.postman 7 Scenario.scheduled_world
      = (mkResult false "Campaign October digest is not in draft status" None None,
         Scenario.scheduled_world).
Proof. repeat split; vm_compute; reflexivity. Qed.

(** C8: a draft campaign whose audience resolves to nobody is not sent:
    [send_campaign] raises, reports failure with the no-subscribers message,
    and the database is the one it started from, so the campaign keeps its
    status and every counter. *)
Theorem empty_audience_leaves_campaign_unchanged env campaign_id w c :
  campaigns w !! campaign_id = Some c →
  EmailCampaign.status c = EmailCampaign.draft →
  _get_target_subscribers c w = [] →
  send_campaign_body env campaign_id w = (inl (ValueError no_subscribers_message), w)
  ∧ send_campaign env campaign_id w
      = (mkResult false no_subscribers_message None None, w)
  ∧ campaigns (send_campaign env campaign_id w).2 !! campaign_id = Some c.
Proof.
  intros Hget Hst Hempty. unfold send_campaign.
  by rewrite (send_campaign_body_empty env _ _ c).
Qed.

Lemma empty_audience_witness :
  send_campaign_body Scenario.postman 1 Scenario.empty_world
    = (inl (ValueError no_subscribers_message), Scenario.empty_world)
  ∧ send_campaign Scenario.postman 1 Scenario.empty_world
      = (mkResult false no_subscribers_message None None, Scenario.empty_world)
  ∧ campaigns (send_campaign Scenario.postman 1 Scenario.empty_world).2 !! 1
      = Some (Scenario.to_all EmailCampaign.draft).
Proof.
  apply (empty_audience_leaves_campaign_unchanged Scenario.postman 1
           Scenario.empty_world (Scenario.to_all EmailCampaign.draft));
    reflexivity.
Defined.

(** ** A completed send *)

(** A ledger write that fails after the message went out: the call succeeds,
    the recipient is neither counted, credited nor logged. *)
Example ledger_failure_is_not_counted :
  (send_campaign Scenario.clerk 7 Scenario.draft_world).1
    = mkResult true "Campaign sent to 4 subscribers" (Some 4) (Some 5)
  ∧ subscribers (send_campaign Scenario.clerk 7 Scenario.draft_world).2 !! 2
      = Some (Scenario.reader "b@example.com" ∅)
  ∧ rows_of_subscriber 2 (send_campaign Scenario.clerk 7 Scenario.draft_world).2 = []
  ∧ email_sent_count 7 (send_campaign Scenario.clerk 7 Scenario.draft_world).2 = 4.
Proof. repeat split; vm_compute; reflexivity. Qed.



(** Every appended row is an [email_sent] row of the campaign. *)
Lemma email_sent_rows_count env campaign_id c
    (l : list (nat * NewsletterSubscriber.t)) :
  length (filter (is_email_sent_for campaign_id)
            (activity_row env campaign_id c <$> l)) = length l.
Proof.
  induction l as [|p l IH]; [done|].
  rewrite fmap_cons, filter_cons_True by done. simpl. by rewrite IH.
Qed.



(** A call that reports success went through the whole send: the campaign
    was a draft and its audience was not empty. *)
Lemma send_campaign_success_inv env campaign_id w c :
  campaigns w !! campaign_id = Some c →
  success (send_campaign env campaign_id w).1 = true →
  EmailCampaign.status c = EmailCampaign.draft
  ∧ _get_target_subscribers c w ≠ [].
Proof.
  intros Hget Hok. unfold send_campaign in Hok.
  destruct (decide (EmailCampaign.status c = EmailCampaign.draft)) as [Hst|Hst].
  - split; [done|]. intros Hempty.
    by rewrite (send_campaign_body_empty env _ _ c) in Hok.
  - by rewrite (send_campaign_body_not_draft env _ _ c) in Hok.
Qed.

(** C7 (as the code has it): when [send_campaign] completes a send over an
    audience of [n] recipients of which [k] deliveries succeed, the campaign
    row ends with [status = 'sent'], [sent_at] set to the time of
    completion, [total_recipients = n] and [total_sent = k], with [k <= n];
    the ledger holds [k] more [email_sent] rows for the campaign than before
    the send, hence exactly [k] when it held none. *)
Theorem completed_send_totals env campaign_id w c :
  campaigns w !! campaign_id = Some c →
  success (send_campaign env campaign_id w).1 = true →
  let audience := _get_target_subscribers c w in
  let n := length audience in
  let k := length (filter (delivered env campaign_id
                             (EmailCampaign.begin_sending n c)) audience) in
  sent_count (send_campaign env campaign_id w).1 = Some k
  ∧ total_recipients (send_campaign env campaign_id w).1 = Some n
  ∧ (∃ c', campaigns (send_campaign env campaign_id w).2 !! campaign_id = Some c'
           ∧ EmailCampaign.status c' = EmailCampaign.sent
           ∧ EmailCampaign.sent_at c' = Some (now env)
           ∧ EmailCampaign.total_recipients c' = n
           ∧ EmailCampaign.total_sent c' = k
           ∧ (EmailCampaign.total_sent c' ≤ EmailCampaign.total_recipients c')%nat)
  ∧ email_sent_count campaign_id (send_campaign env campaign_id w).2
      = email_sent_count campaign_id w + k
  ∧ (email_sent_count campaign_id w = 0 →
     email_sent_count campaign_id (send_campaign env campaign_id w).2 = k).
Proof.
  intros Hget Hok audience n k.
  destruct (send_campaign_success_inv env campaign_id w c Hget Hok) as [Hst Hne].
  unfold send_campaign.
  rewrite (send_campaign_body_sent env _ _ c) by done. cbn [report fst snd].
  fold audience n. fold k.
  assert (Hcount :
    email_sent_count campaign_id
      (mkWorld
         (<[campaign_id := EmailCampaign.finish_sent k (now env)
                             (EmailCampaign.begin_sending n c)]> (campaigns w))
         (foldl credit (subscribers w)
            (filter (delivered env campaign_id (EmailCampaign.begin_sending n c))
               audience))
         (activities w ++
            (activity_row env campaign_id (EmailCampaign.begin_sending n c)
               <$> filter (delivered env campaign_id
                             (EmailCampaign.begin_sending n c)) audience)))
      = email_sent_count campaign_id w + k).
  { unfold email_sent_count. simpl.
    by rewrite filter_app, length_app, email_sent_rows_count. }
  split; [done|]. split; [done|]. split.
  { eexists. simpl. rewrite lookup_insert_eq. split; [done|]. simpl.
    repeat split. apply length_filter. }
  split; [done|].
  intros Hzero. rewrite Hcount. lia.
Qed.

(** Five eligible recipients, the transport refuses one: the campaign ends
    sent, 4 of 5, with exactly 4 [email_sent] rows. *)
Lemma completed_send_witness :
  sent_count (send_campaign Scenario.postman 7 Scenario.draft_world).1 = Some 4
  ∧ total_recipients (send_campaign Scenario.postman 7 Scenario.draft_world).1 = Some 5
  ∧ email_sent_count 7 (send_campaign Scenario.postman 7 Scenario.draft_world).2 = 4.
Proof.
  pose proof (completed_send_totals Scenario.postman 7 Scenario.draft_world
                (Scenario.to_all EmailCampaign.draft)) as H.
  destruct H as (H1 & H2 & _ & _ & H5); [reflexivity | reflexivity |].
  split; [exact H1|]. split; [exact H2|]. apply H5. reflexivity.
Defined.

(** C7, counterexample: campaign 7 was sent once (4 of 5 delivered, 4 ledger
    rows) and set back to draft in the admin.  Sent again, with the same
    recipient refused, the send completes over 5 recipients with 4
    deliveries, the campaign ends sent with [total_sent = 4], and the ledger
    holds 8 [email_sent] rows for the campaign, not 4. *)
Lemma resent_campaign_has_more_rows_than_sent :
  (∃ c, campaigns Scenario.reopened !! 7 = Some c
        ∧ EmailCampaign.status c = EmailCampaign.draft)
  ∧ email_sent_count 7 Scenario.reopened = 4
  ∧ (send_campaign Scenario.postman 7 Scenario.reopened).1
      = mkResult true "Campaign sent to 4 subscribers" (Some 4) (Some 5)
  ∧ (∃ c', campaigns (send_campaign Scenario.postman 7 Scenario.reopened).2 !! 7
             = Some c'
           ∧ EmailCampaign.status c' = EmailCampaign.sent
           ∧ EmailCampaign.sent_at c' = Some 1000
           ∧ EmailCampaign.total_recipients c' = 5
           ∧ EmailCampaign.total_sent c' = 4)
  ∧ email_sent_count 7 (send_campaign Scenario.postman 7 Scenario.reopened).2 = 8
  ∧ email_sent_count 7 (send_campaign Scenario.postman 7 Scenario.reopened).2 ≠ 4.
Proof.
  split; [eexists; split; [by vm_compute | by vm_compute]|].
  split; [by vm_compute|]. split; [by vm_compute|].
  split; [eexists; split; [by vm_compute|]; by vm_compute|].
  split; [by vm_compute|]. by vm_compute.
Qed.

(** ** The public interface *)

(** What the [except] clauses make of an exception. *)
Lemma report_raise e w :
  report (inl e, w)
    = (mkResult false (match e with DoesNotExist => "Campaign not found" | _ => str e end)
         None None, w).
Proof. by destruct e. Qed.

(** [_send_email_to_subscriber] on an object that was never saved: whatever
    the transport does, the call raises and writes nothing. *)
Lemma send_to_unsaved_subscriber_raises env campaign_id c s w :
  ∃ e, _send_email_to_subscriber env campaign_id c (None, s) w = (inl e, w).
Proof.
  unfold _send_email_to_subscriber, try_except, bind, email_send,
    NewsletterActivity_objects_create, raise, ret. simpl.
  destruct (transport env _); eauto.
Qed.

(** C3, what the code does: [send_test_email] never reports success.  The
    helper it shares with the real send logs an [email_sent] activity after
    the transport call, and the activity's subscriber is the temporary,
    unsaved object, which the ledger cannot reference.  The call changes
    nothing in the database, but it returns [success = False] even when the
    message went out. *)
Theorem send_test_email_never_succeeds env campaign_id test_email w :
  ∃ msg, send_test_email env campaign_id test_email w
           = (mkResult false msg None None, w).
Proof.
  unfold send_test_email, send_test_email_body, bind, EmailCampaign_objects_get.
  destruct (campaigns w !! campaign_id) as [c|]; [|by eexists].
  destruct (send_to_unsaved_subscriber_raises env campaign_id c
              (NewsletterSubscriber.new test_email "Test" "User") w) as [e ->].
  rewrite report_raise. eauto.
Qed.

(** C3 at a concrete input: a draft campaign, a transport that accepts the
    test address. *)
Lemma send_test_email_accepted_by_transport_fails :
  transport Scenario.postman
    (build_email Scenario.postman (Scenario.to_all EmailCampaign.draft)
       (NewsletterSubscriber.new "qa@example.com" "Test" "User")) = None
  ∧ send_test_email Scenario.postman 7 "qa@example.com" Scenario.draft_world
      = (mkResult false
           "save() prohibited to prevent data loss due to unsaved related object 'subscriber'."
           None None, Scenario.draft_world).
Proof. split; vm_compute; reflexivity. Qed.

(** ** Float rounding *)

Section FloatFacts.
Local Open Scope Q_scope.

Lemma round_half_even_error q :
  Qabs (inject_Z (Float.round_half_even q) - q) <= 1 # 2.
Proof.
  unfold Float.round_half_even.
  pose proof (Qfloor_le q) as Hlo. pose proof (Qlt_floor q) as Hhi.
  rewrite inject_Z_plus in Hhi. change (inject_Z 1) with 1 in Hhi.
  apply Qabs_Qle_condition.
  destruct (Qcompare_spec (q - inject_Z (Qfloor q)) (1 # 2)) as [He|Hl|Hg].
  - destruct (Z.even (Qfloor q)); rewrite ?inject_Z_plus;
      change (inject_Z 1) with 1; lra.
  - lra.
  - rewrite inject_Z_plus. change (inject_Z 1) with 1. lra.
Qed.

Lemma round_half_even_nonneg q : 0 <= q → (0 <= Float.round_half_even q)%Z.
Proof.
  intros Hq. unfold Float.round_half_even.
  assert (0 <= Qfloor q)%Z as Hf.
  { change 0%Z with (Qfloor 0). by apply Qfloor_resp_le. }
  repeat case_match; lia.
Qed.

Lemma two_power_pos e : 0 < 2 ^ e.
Proof. by apply Qpower_0_lt. Qed.

(** The binade's lower end is below the number. *)
Lemma binade_lower q : 0 < q → 2 ^ Float.binade q <= q.
Proof.
  intros Hq. unfold Float.binade.
  destruct q as [n d]. cbn [Qnum Qden] in *.
  set (ln := Z.log2 n). set (ld := Z.log2 (Z.pos d)).
  destruct (Qle_bool (2 ^ (ln - ld)) (n # d)) eqn:Hb.
  { by apply Qle_bool_iff. }
  assert (0 < n)%Z as Hn by (unfold Qlt in Hq; simpl in Hq; lia).
  destruct (Z.log2_spec n Hn) as [Hn1 _].
  destruct (Z.log2_spec (Z.pos d) (Pos2Z.is_pos d)) as [_ Hd2].
  fold ln in Hn1. fold ld in Hd2.
  assert (0 <= ln)%Z as Hln by apply Z.log2_nonneg.
  assert (0 <= ld)%Z as Hld by apply Z.log2_nonneg.
  replace (ln - ld - 1)%Z with (ln + - (Z.succ ld))%Z by lia.
  rewrite Qpower_plus by done. rewrite Qpower_opp.
  change 2 with (inject_Z 2).
  rewrite <- !Zpower_Qpower by lia.
  rewrite (Qmake_Qdiv n d).
  rewrite Zle_Qle in Hn1. rewrite Zlt_Qlt in Hd2.
  assert (0 < inject_Z (Z.pos d)) as Hdpos by (by rewrite <- (Zlt_Qlt 0)).
  assert (0 < inject_Z (2 ^ ln)) as Hpn.
  { rewrite <- (Zlt_Qlt 0). by apply Z.pow_pos_nonneg. }
  set (N := inject_Z n) in *. set (D := inject_Z (Z.pos d)) in *.
  set (PN := inject_Z (2 ^ ln)) in *. set (PD := inject_Z (2 ^ Z.succ ld)) in *.
  apply Qle_shift_div_l; [done|].
  assert (0 < / PD) as Hinv by (apply Qinv_lt_0_compat; lra).
  assert (/ PD * PD == 1) as Hone by (field; lra).
  set (IPD := / PD) in *.
  assert (IPD * D <= 1) as H1 by nra.
  nra.
Qed.

(** ... and its upper end is above it. *)
Lemma binade_upper q : 0 < q → q < 2 ^ (Float.binade q + 1).
Proof.
  intros Hq. unfold Float.binade.
  destruct q as [n d]. cbn [Qnum Qden] in *.
  set (ln := Z.log2 n). set (ld := Z.log2 (Z.pos d)).
  destruct (Qle_bool (2 ^ (ln - ld)) (n # d)) eqn:Hb.
  2:{ replace (ln - ld - 1 + 1)%Z with (ln - ld)%Z by lia.
      apply Qnot_le_lt. intros Hle. apply Qle_bool_iff in Hle. congruence. }
  assert (0 < n)%Z as Hn by (unfold Qlt in Hq; simpl in Hq; lia).
  destruct (Z.log2_spec n Hn) as [_ Hn2].
  destruct (Z.log2_spec (Z.pos d) (Pos2Z.is_pos d)) as [Hd1 _].
  fold ln in Hn2. fold ld in Hd1.
  assert (0 <= ln)%Z as Hln by apply Z.log2_nonneg.
  assert (0 <= ld)%Z as Hld by apply Z.log2_nonneg.
  replace (ln - ld + 1)%Z with (Z.succ ln + - ld)%Z by lia.
  rewrite Qpower_plus by done. rewrite Qpower_opp.
  change 2 with (inject_Z 2).
  rewrite <- !Zpower_Qpower by lia.
  rewrite (Qmake_Qdiv n d).
  rewrite Zlt_Qlt in Hn2. rewrite Zle_Qle in Hd1.
  assert (0 < inject_Z (Z.pos d)) as Hdpos by (by rewrite <- (Zlt_Qlt 0)).
  assert (0 < inject_Z (2 ^ ld)) as Hpd.
  { rewrite <- (Zlt_Qlt 0). by apply Z.pow_pos_nonneg. }
  assert (0 < inject_Z n) as Hnpos by (by rewrite <- (Zlt_Qlt 0)).
  set (N := inject_Z n) in *. set (D := inject_Z (Z.pos d)) in *.
  set (PN := inject_Z (2 ^ Z.succ ln)) in *. set (PD := inject_Z (2 ^ ld)) in *.
  apply Qlt_shift_div_r; [done|].
  assert (0 < / PD) as Hinv by (apply Qinv_lt_0_compat; lra).
  assert (/ PD * PD == 1) as Hone by (field; lra).
  set (IPD := / PD) in *.
  assert (1 <= IPD * D) as H1 by nra.
  nra.
Qed.

(** Rounding a positive number moves it by at most half a unit in the last
    place, that is by at most [2^-53] of its value. *)
Lemma rnd_pos_error q :
  0 < q → Qabs (Float.rnd_pos q - q) <= q * (1 # 9007199254740992).
Proof.
  intros Hq. unfold Float.rnd_pos. rewrite Qred_correct.
  pose proof (binade_lower q Hq) as Hlo.
  set (e := (Float.binade q - 52)%Z).
  replace (Float.binade q) with (e + 52)%Z in Hlo by (unfold e; lia).
  rewrite Qpower_plus in Hlo by done.
  pose proof (two_power_pos e) as Hp.
  pose proof (round_half_even_error (q / 2 ^ e)) as Hr.
  apply Qabs_Qle_condition in Hr. apply Qabs_Qle_condition.
  assert (q / 2 ^ e * 2 ^ e == q) as Hx by (field; lra).
  change (2 ^ 52) with 4503599627370496 in Hlo.
  set (P := 2 ^ e) in *. set (x := q / P) in *.
  set (m := inject_Z (Float.round_half_even x)) in *.
  split; nra.
Qed.

Lemma rnd_error q :
  0 <= q → Qabs (Float.rnd q - q) <= q * (1 # 9007199254740992).
Proof.
  intros Hq. unfold Float.rnd. destruct q as [[|n|n] d]; cbn [Qnum].
  - apply Qabs_Qle_condition. unfold Qle, Qminus, Qplus, Qopp, Qmult. simpl. lia.
  - apply rnd_pos_error. unfold Qlt. simpl. lia.
  - unfold Qle in Hq. simpl in Hq. lia.
Qed.

Lemma rnd_nonneg q : 0 <= q → 0 <= Float.rnd q.
Proof.
  intros Hq. pose proof (rnd_error q Hq) as He.
  apply Qabs_Qle_condition in He. lra.
Qed.

End FloatFacts.

Section FloatWellDefined.
Local Open Scope Q_scope.

(** The binade is the one exponent that brackets the number. *)
Lemma binade_unique q e :
  0 < q → 2 ^ e <= q → q < 2 ^ (e + 1) → Float.binade q = e.
Proof.
  intros Hq Hlo Hhi.
  pose proof (binade_lower q Hq) as Blo. pose proof (binade_upper q Hq) as Bhi.
  destruct (Z.lt_trichotomy (Float.binade q) e) as [Hlt|[Heq|Hgt]]; [|done|].
  - assert (2 ^ (Float.binade q + 1) <= 2 ^ e) as Hmono.
    { apply Qpower_le_compat_l; [lia | lra]. }
    lra.
  - assert (2 ^ (e + 1) <= 2 ^ Float.binade q) as Hmono.
    { apply Qpower_le_compat_l; [lia | lra]. }
    lra.
Qed.

Lemma round_half_even_proper q q' :
  q == q' → Float.round_half_even q = Float.round_half_even q'.
Proof.
  intros Heq. unfold Float.round_half_even.
  rewrite <- (Qfloor_comp _ _ Heq).
  assert ((q - inject_Z (Qfloor q) ?= 1 # 2) = (q' - inject_Z (Qfloor q) ?= 1 # 2))
    as ->.
  { apply Qcompare_comp; [|reflexivity]. by apply Qplus_comp. }
  done.
Qed.

(** Rounding depends on the value of the rational, not on the fraction that
    denotes it. *)
Lemma rnd_proper q q' : q == q' → Float.rnd q = Float.rnd q'.
Proof.
  intros Heq.
  assert (∀ x y, x == y → 0 < x → Float.rnd_pos x = Float.rnd_pos y) as Hpos.
  { intros x y Hxy Hx. unfold Float.rnd_pos.
    assert (Float.binade y = Float.binade x) as ->.
    { apply binade_unique; rewrite <- Hxy;
        [done | by apply binade_lower | by apply binade_upper]. }
    apply Qred_complete.
    rewrite (round_half_even_proper (y / _) (x / 2 ^ (Float.binade x - 52))); [done|].
    unfold Qdiv. apply Qmult_comp; [by symmetry | reflexivity]. }
  unfold Float.rnd.
  destruct q as [[|n|n] d], q' as [[|n'|n'] d']; cbn [Qnum];
    try (unfold Qeq in Heq; simpl in Heq; lia).
  - done.
  - apply Hpos; [done|]. unfold Qlt. simpl. lia.
  - f_equal. apply Hpos; [by apply Qopp_comp|]. unfold Qlt. simpl. lia.
Qed.

End FloatWellDefined.

Section Percent.
Local Open Scope Q_scope.

(** The rounded significand has 53 bits (it is [2^53] when rounding carries
    into the next binade). *)
Lemma rnd_pos_significand q :
  0 < q →
  (2 ^ 52 <= Float.round_half_even (q / 2 ^ (Float.binade q - 52)) <= 2 ^ 53)%Z.
Proof.
  intros Hq.
  pose proof (binade_lower q Hq) as Hlo. pose proof (binade_upper q Hq) as Hhi.
  set (e := (Float.binade q - 52)%Z).
  replace (Float.binade q + 1)%Z with (e + 53)%Z in Hhi by (unfold e; lia).
  replace (Float.binade q) with (e + 52)%Z in Hlo by (unfold e; lia).
  rewrite Qpower_plus in Hlo, Hhi by done.
  pose proof (two_power_pos e) as Hp.
  pose proof (round_half_even_error (q / 2 ^ e)) as Hr.
  apply Qabs_Qle_condition in Hr.
  assert (q / 2 ^ e * 2 ^ e == q) as Hx by (field; lra).
  change (2 ^ 52) with 4503599627370496 in Hlo.
  change (2 ^ 53) with 9007199254740992 in Hhi.
  set (P := 2 ^ e) in *. set (x := q / P) in *.
  set (m := Float.round_half_even x) in *.
  assert (4503599627370496 <= x) as Hx1 by nra.
  assert (x < 9007199254740992) as Hx2 by nra.
  assert (inject_Z 4503599627370495 < inject_Z m) as H1.
  { change (inject_Z 4503599627370495) with 4503599627370495. lra. }
  assert (inject_Z m < inject_Z 9007199254740993) as H2.
  { change (inject_Z 9007199254740993) with 9007199254740993. lra. }
  rewrite <- Zlt_Qlt in H1, H2.
  change (2 ^ 52)%Z with 4503599627370496%Z.
  change (2 ^ 53)%Z with 9007199254740992%Z. lia.
Qed.

(** The value computed by [round((num / den) * 100, 1)] for counters in the
    range of the column type. *)
Lemma percent_to_one_decimal (num den : nat) :
  (0 < den)%nat → (Z.of_nat num <= 2147483647)%Z →
  percentage_to_one_decimal num den (EmailCampaign.percent num den).
Proof.
  intros Hden Hnum. unfold percentage_to_one_decimal, EmailCampaign.percent.
  unfold Float.round, Float.mul, Float.truediv.
  set (A := inject_Z (Z.of_nat num)). set (B := inject_Z (Z.of_nat den)).
  assert (0 <= A) as HA by (unfold A; rewrite <- (Zle_Qle 0); lia).
  assert (A <= 2147483647) as HA'.
  { unfold A. change 2147483647 with (inject_Z 2147483647).
    by rewrite <- Zle_Qle. }
  assert (1 <= B) as HB.
  { unfold B. change 1 with (inject_Z 1). rewrite <- Zle_Qle. lia. }
  set (q0 := A / B).
  assert (q0 * B == A) as Hq0 by (unfold q0; field; lra).
  assert (0 <= q0) as Hq0pos.
  { unfold q0. apply Qle_shift_div_l; lra. }
  pose proof (rnd_error q0 Hq0pos) as E1. apply Qabs_Qle_condition in E1.
  set (x1 := Float.rnd q0) in *.
  assert (0 <= x1 * 100) as Hx1 by lra.
  pose proof (rnd_error (x1 * 100) Hx1) as E2. apply Qabs_Qle_condition in E2.
  set (x2 := Float.rnd (x1 * 100)) in *.
  change (10 ^ 1) with 10.
  pose proof (round_half_even_error (x2 * 10)) as E3.
  apply Qabs_Qle_condition in E3.
  assert (0 <= x2 * 10) as Hx2 by lra.
  pose proof (round_half_even_nonneg (x2 * 10) Hx2) as Hd.
  set (d := Float.round_half_even (x2 * 10)) in *.
  exists d. split; [|split; [reflexivity|]].
  - (* the integer 2*den*d - 2000*num lies in [-den, den] *)
    set (D := inject_Z d) in *.
    assert (inject_Z (2 * Z.of_nat den * d - 2000 * Z.of_nat num)
            = 2 * B * D - 2000 * A) as Hz.
    { unfold Z.sub. rewrite inject_Z_plus, inject_Z_opp, !inject_Z_mult. reflexivity. }
    assert (2 * B * D - 2000 * A < B + 1) as Hup by nra.
    assert (- B - 1 < 2 * B * D - 2000 * A) as Hdn by nra.
    rewrite <- Hz in Hup, Hdn.
    assert (B + 1 = inject_Z (Z.of_nat den + 1)) as HB1.
    { by rewrite inject_Z_plus. }
    assert (- B - 1 = inject_Z (- Z.of_nat den - 1)) as HB2.
    { unfold Z.sub. by rewrite inject_Z_plus, inject_Z_opp. }
    rewrite HB1 in Hup. rewrite HB2 in Hdn.
    rewrite <- Zlt_Qlt in Hup, Hdn.
    assert (inject_Z (2 * Z.of_nat den * d - 2000 * Z.of_nat num) <= B) as Hup'.
    { unfold B. rewrite <- Zle_Qle. lia. }
    assert (- B <= inject_Z (2 * Z.of_nat den * d - 2000 * Z.of_nat num)) as Hdn'.
    { unfold B. rewrite <- inject_Z_opp, <- Zle_Qle. lia. }
    rewrite Hz in Hup', Hdn'.
    apply Qabs_Qle_condition.
    assert (1000 * A / B == 1000 * q0) as -> by (unfold q0; field; lra).
    split; nra.
  - apply rnd_error. apply Qle_shift_div_l; [lra|].
    assert (0 <= inject_Z d) by (by rewrite <- (Zle_Qle 0)). lra.
Qed.

End Percent.

(** The rounding model agrees with the machine's binary64 arithmetic on the
    quotient-times-hundred step, here for a few counter pairs. *)
Example float_model_agrees_with_binary64 :
  Forall (λ '(a, b),
            Float.mul (Float.truediv a b) 100%Q
            = Float.of_prim
                (PrimFloat.mul
                   (PrimFloat.div (PrimFloat.of_uint63 (Uint63.of_Z a))
                                  (PrimFloat.of_uint63 (Uint63.of_Z b)))
                   (PrimFloat.of_uint63 (Uint63.of_Z 100))))
         [(40, 100); (1, 3); (2, 3); (247, 2000); (7, 2147483647);
          (2147483647, 3); (97, 120); (1, 7)]%Z.
Proof. repeat constructor; vm_compute; reflexivity. Qed.

(** ** Metrics *)

(** C9: each rate is 0 when its denominator is zero and otherwise the counter
    ratio as a percentage rounded to one decimal place: open, click and
    unsubscribe rate over [total_sent], delivery rate over
    [total_recipients].  With 100 sent and 40 opened the open rate is 40.0. *)
Theorem rates_are_percentages_to_one_decimal (c : EmailCampaign.t) :
  counters_in_range c →
  (EmailCampaign.total_sent c = 0 →
     EmailCampaign.get_open_rate c = 0%Q
     ∧ EmailCampaign.get_click_rate c = 0%Q
     ∧ EmailCampaign.get_unsubscribe_rate c = 0%Q)
  ∧ (0 < EmailCampaign.total_sent c →
     percentage_to_one_decimal (EmailCampaign.total_opened c)
       (EmailCampaign.total_sent c) (EmailCampaign.get_open_rate c)
     ∧ percentage_to_one_decimal (EmailCampaign.total_clicked c)
         (EmailCampaign.total_sent c) (EmailCampaign.get_click_rate c)
     ∧ percentage_to_one_decimal (EmailCampaign.total_unsubscribed c)
         (EmailCampaign.total_sent c) (EmailCampaign.get_unsubscribe_rate c))
  ∧ (EmailCampaign.total_recipients c = 0 → EmailCampaign.get_delivery_rate c = 0%Q)
  ∧ (0 < EmailCampaign.total_recipients c →
     percentage_to_one_decimal (EmailCampaign.total_delivered c)
       (EmailCampaign.total_recipients c) (EmailCampaign.get_delivery_rate c))
  ∧ (EmailCampaign.total_sent c = 100 → EmailCampaign.total_opened c = 40 →
     EmailCampaign.get_open_rate c = 40%Q).
Proof.
  intros Hrange. unfold counters_in_range, EmailCampaign.counters in Hrange.
  repeat (apply Forall_cons in Hrange as [? Hrange]).
  unfold EmailCampaign.get_open_rate, EmailCampaign.get_click_rate,
    EmailCampaign.get_unsubscribe_rate, EmailCampaign.get_delivery_rate.
  split; [|split; [|split; [|split]]].
  - intros ->. by rewrite bool_decide_eq_false_2 by lia.
  - intros Hsent. rewrite bool_decide_eq_true_2 by done.
    repeat split; by apply percent_to_one_decimal.
  - intros ->. by rewrite bool_decide_eq_false_2 by lia.
  - intros Hrec. rewrite bool_decide_eq_true_2 by done.
    by apply percent_to_one_decimal.
  - intros -> ->. rewrite bool_decide_eq_true_2 by lia. by vm_compute.
Qed.

Lemma measured_campaign_rates :
  counters_in_range Scenario.measured
  ∧ EmailCampaign.get_open_rate Scenario.measured = 40%Q
  ∧ percentage_to_one_decimal 7 100 (EmailCampaign.get_click_rate Scenario.measured)
  ∧ percentage_to_one_decimal 97 120 (EmailCampaign.get_delivery_rate Scenario.measured).
Proof.
  assert (counters_in_range Scenario.measured) as Hrange.
  { unfold counters_in_range. repeat constructor; by vm_compute. }
  split; [exact Hrange|].
  destruct (rates_are_percentages_to_one_decimal Scenario.measured Hrange)
    as (_ & H2 & _ & H4 & H5).
  split; [by apply H5|].
  split; [apply H2 | apply H4]; simpl; lia.
Defined.

(** * Further properties *)

(** ** Names and labels *)

Lemma before_at_split (s : string) :
  ∃ rest, s = NewsletterSubscriber.before_at s +:+ rest
          ∧ (rest = EmptyString ∨ ∃ r, rest = String "@" r).
Proof.
  induction s as [|c s [rest [Heq Hrest]]]; simpl.
  - exists EmptyString. auto.
  - destruct (Ascii.eqb_spec c "@") as [->|Hc].
    + exists (String "@" s). split; [done | eauto].
    + exists rest. split; [|done]. rewrite Heq at 1. reflexivity.
Qed.

Lemma before_at_has_no_at (s pre post : string) :
  NewsletterSubscriber.before_at s ≠ pre +:+ String "@" post.
Proof.
  revert pre. induction s as [|c s IH]; intros pre; simpl.
  - by destruct pre.
  - destruct (Ascii.eqb_spec c "@") as [->|Hc]; [by destruct pre|].
    destruct pre as [|c' pre]; simpl; intros [= Hcc Hrest].
    + by apply Hc.
    + by apply (IH pre).
Qed.

(** X1: a subscriber with no first name is named by the part of the address
    before the first ['@'], whatever the last name: the name is a prefix of
    the address, what follows it is nothing or starts with ['@'], and the
    name itself has no ['@']. *)
Theorem get_full_name_without_first_name (s : NewsletterSubscriber.t) :
  NewsletterSubscriber.first_name s = EmptyString →
  (∃ rest, NewsletterSubscriber.email s = NewsletterSubscriber.get_full_name s +:+ rest
           ∧ (rest = EmptyString ∨ ∃ r, rest = String "@" r))
  ∧ ∀ pre post, NewsletterSubscriber.get_full_name s ≠ pre +:+ String "@" post.
Proof.
  intros Hfirst. unfold NewsletterSubscriber.get_full_name. rewrite Hfirst.
  split; [apply before_at_split | apply before_at_has_no_at].
Qed.

Lemma get_full_name_without_first_name_witness :
  NewsletterSubscriber.get_full_name
    (NewsletterSubscriber.mk "ada.reader@example.com" EmptyString "Reader"
       NewsletterSubscriber.active ∅ 0 0 0 true) = "ada.reader"
  ∧ ∃ rest, "ada.reader@example.com"
            = NewsletterSubscriber.get_full_name
                (NewsletterSubscriber.mk "ada.reader@example.com" EmptyString "Reader"
                   NewsletterSubscriber.active ∅ 0 0 0 true) +:+ rest
            ∧ (rest = EmptyString ∨ ∃ r, rest = String "@" r).
Proof.
  split; [reflexivity|].
  apply (get_full_name_without_first_name
           (NewsletterSubscriber.mk "ada.reader@example.com" EmptyString "Reader"
              NewsletterSubscriber.active ∅ 0 0 0 true)).
  reflexivity.
Defined.

(** X2: the name is empty in one case only: no first name, and an address
    that is empty or starts with ['@'].  In every other case the greeting has
    a name in it. *)
Theorem get_full_name_empty_iff (s : NewsletterSubscriber.t) :
  NewsletterSubscriber.get_full_name s = EmptyString ↔
    NewsletterSubscriber.first_name s = EmptyString
    ∧ (NewsletterSubscriber.email s = EmptyString
       ∨ ∃ r, NewsletterSubscriber.email s = String "@" r).
Proof.
  unfold NewsletterSubscriber.get_full_name.
  destruct (NewsletterSubscriber.first_name s) as [|c f] eqn:Hf.
  - destruct (NewsletterSubscriber.email s) as [|c e] eqn:He; simpl.
    + intuition.
    + destruct (Ascii.eqb_spec c "@") as [->|Hc].
      * split; [eauto|done].
      * split; [done|]. intros [_ [?|[r [= ? _]]]]; done.
  - destruct (NewsletterSubscriber.last_name s); simpl; split; try done;
      intros [? _]; done.
Qed.

(** ** The subject column of the activity list *)

Lemma Str_len_app (a b : string) :
  Str.len (a +:+ b) = Str.len a + Str.len b.
Proof.
  induction a as [|c a IH]; simpl; [done|].
  destruct (Str.is_continuation c); simpl; by rewrite IH.
Qed.

(** [s[:n]] of a text longer than [n]: the slice holds [n] code points and
    ends where the next code point starts. *)
Lemma Str_take_split (n : nat) (s : string) :
  (n < Str.len s)%nat →
  Str.len (Str.take n s) = n
  ∧ ∃ c tail, s = Str.take n s +:+ String c tail ∧ Str.is_continuation c = false.
Proof.
  revert n. induction s as [|c s IH]; intros n Hn; simpl in *; [lia|].
  destruct (Str.is_continuation c) eqn:Hc.
  - destruct (IH n Hn) as [Hlen (c' & tail & Htail & Hc')].
    simpl. rewrite Hc. split; [done|].
    exists c', tail. split; [|done]. rewrite Htail at 1. reflexivity.
  - destruct n as [|n].
    + split; [done|]. by exists c, s.
    + destruct (IH n) as [Hlen (c' & tail & Htail & Hc')]; [lia|].
      simpl. rewrite Hc. split; [by rewrite Hlen|].
      exists c', tail. split; [|done]. rewrite Htail at 1. reflexivity.
Qed.

(** Twenty accented letters are forty bytes and twenty characters: the
    subject is shown whole. *)
Example accented_subject_is_shown_whole :
  String.length "éééééééééééééééééééé" = 40
  ∧ Str.len "éééééééééééééééééééé" = 20
  ∧ email_subject_short "éééééééééééééééééééé" = "éééééééééééééééééééé"
  ∧ email_subject_short "ééééééééééééééééééééééééééééééé and more"
      = "éééééééééééééééééééééééééééééé...".
Proof. repeat split; vm_compute; reflexivity. Qed.

(** X3: the subject shown in the activity list is never empty and never
    longer than 33 characters (code points, as [len] counts them): an empty
    subject shows as a dash, a subject of at most 30 characters shows whole,
    a longer one shows its first 30 characters followed by three dots. *)
Theorem email_subject_short_fits (subject : string) :
  email_subject_short subject ≠ EmptyString
  ∧ (Str.len (email_subject_short subject) ≤ 33)%nat
  ∧ (subject = EmptyString → email_subject_short subject = "-")
  ∧ (subject ≠ EmptyString → (Str.len subject ≤ 30)%nat →
     email_subject_short subject = subject)
  ∧ ((30 < Str.len subject)%nat →
     ∃ head c tail, subject = head +:+ String c tail
                    ∧ Str.len head = 30
                    ∧ Str.is_continuation c = false
                    ∧ email_subject_short subject = head +:+ "...").
Proof.
  unfold email_subject_short.
  destruct subject as [|c s]; [simpl; repeat split; try done; lia|].
  case_bool_decide as Hlong.
  - destruct (Str_take_split 30 (String c s)) as [Hlen (c' & tail & Htail & Hc')]; [lia|].
    repeat split.
    + intros Heq. apply (f_equal Str.len) in Heq.
      rewrite Str_len_app, Hlen in Heq. simpl in Heq. lia.
    + rewrite Str_len_app, Hlen. simpl. lia.
    + done.
    + lia.
    + intros _. eauto 10.
  - repeat split; try done; lia.
Qed.

(** ** Rates stay within 0 and 100 *)

Section RateBounds.
Local Open Scope Q_scope.

(** The decimal behind a percentage of a part of a whole is between 0 and
    1000 tenths, and the float nearest to it is between 0 and 100. *)
Lemma percent_bounds (num den : nat) :
  (0 < den)%nat → (num ≤ den)%nat → (Z.of_nat num <= 2147483647)%Z →
  0 <= EmailCampaign.percent num den <= 100.
Proof.
  intros Hden Hle Hrange.
  destruct (percent_to_one_decimal num den Hden Hrange) as (d & Hd & Hr & Herr).
  apply Qabs_Qle_condition in Hd. apply Qabs_Qle_condition in Herr.
  set (A := inject_Z (Z.of_nat num)) in *. set (B := inject_Z (Z.of_nat den)) in *.
  assert (0 <= A) as HA by (unfold A; rewrite <- (Zle_Qle 0); lia).
  assert (A <= B) as HAB by (unfold A, B; rewrite <- Zle_Qle; lia).
  assert (1 <= B) as HB.
  { unfold B. change 1 with (inject_Z 1). rewrite <- Zle_Qle. lia. }
  assert (0 <= 1000 * A / B <= 1000) as [Hq0 Hq1].
  { split; [apply Qle_shift_div_l | apply Qle_shift_div_r]; lra. }
  assert (inject_Z (-1) < inject_Z d) as Hlo.
  { change (inject_Z (-1)) with (-1). lra. }
  assert (inject_Z d < inject_Z 1001) as Hhi.
  { change (inject_Z 1001) with 1001. lra. }
  rewrite <- Zlt_Qlt in Hlo, Hhi.
  destruct (decide (d = 1000%Z)) as [->|Hne].
  - rewrite Hr. by vm_compute.
  - assert (0 <= inject_Z d) as Hd0 by (rewrite <- (Zle_Qle 0); lia).
    assert (inject_Z d <= 999) as Hd1.
    { change 999 with (inject_Z 999). rewrite <- Zle_Qle. lia. }
    set (D := inject_Z d) in *. set (r := EmailCampaign.percent num den) in *.
    assert (D / 10 * 10 == D) as Hten by field.
    set (T := D / 10) in *.
    split; lra.
Qed.

(** Everything out of everything is exactly 100.0. *)
Lemma percent_full (n : nat) :
  (0 < n)%nat → (Z.of_nat n <= 2147483647)%Z → EmailCampaign.percent n n = 100.
Proof.
  intros Hn Hrange.
  destruct (percent_to_one_decimal n n Hn Hrange) as (d & Hd & Hr & _).
  apply Qabs_Qle_condition in Hd.
  set (A := inject_Z (Z.of_nat n)) in *.
  assert (1 <= A) as HA.
  { unfold A. change 1 with (inject_Z 1). rewrite <- Zle_Qle. lia. }
  assert (1000 * A / A == 1000) as Hq by (field; lra).
  rewrite Hq in Hd.
  assert (inject_Z 999 < inject_Z d) as Hlo.
  { change (inject_Z 999) with 999. lra. }
  assert (inject_Z d < inject_Z 1001) as Hhi.
  { change (inject_Z 1001) with 1001. lra. }
  rewrite <- Zlt_Qlt in Hlo, Hhi.
  assert (d = 1000%Z) as -> by lia.
  rewrite Hr. by vm_compute.
Qed.

(** Nothing out of something is exactly 0.0. *)
Lemma percent_none (den : nat) :
  (0 < den)%nat → EmailCampaign.percent 0 den = 0.
Proof.
  intros Hden.
  destruct (percent_to_one_decimal 0 den Hden) as (d & Hd & Hr & _); [done|].
  apply Qabs_Qle_condition in Hd.
  set (B := inject_Z (Z.of_nat den)) in *.
  assert (1 <= B) as HB.
  { unfold B. change 1 with (inject_Z 1). rewrite <- Zle_Qle. lia. }
  assert (1000 * inject_Z (Z.of_nat 0) / B == 0) as Hq.
  { change (inject_Z (Z.of_nat 0)) with 0. field. lra. }
  rewrite Hq in Hd.
  assert (inject_Z (-1) < inject_Z d) as Hlo.
  { change (inject_Z (-1)) with (-1). lra. }
  assert (inject_Z d < inject_Z 1) as Hhi.
  { change (inject_Z 1) with 1. lra. }
  rewrite <- Zlt_Qlt in Hlo, Hhi.
  assert (d = 0%Z) as -> by lia.
  rewrite Hr. by vm_compute.
Qed.

End RateBounds.

(** X4: for counters in the range of their columns, a campaign rate whose
    numerator does not exceed its denominator lies between 0 and 100, sends
    or no sends.  The delivery rate is exactly 100 when every recipient was
    delivered to, and exactly 0 while [total_delivered] is 0.  Nothing keeps
    [total_opened] under [total_sent], so the order of the counters is a
    hypothesis. *)
Theorem campaign_rates_within_0_100 (c : EmailCampaign.t) :
  counters_in_range c →
  (EmailCampaign.total_opened c ≤ EmailCampaign.total_sent c →
     (0 <= EmailCampaign.get_open_rate c <= 100)%Q)%nat
  ∧ (EmailCampaign.total_clicked c ≤ EmailCampaign.total_sent c →
     (0 <= EmailCampaign.get_click_rate c <= 100)%Q)%nat
  ∧ (EmailCampaign.total_unsubscribed c ≤ EmailCampaign.total_sent c →
     (0 <= EmailCampaign.get_unsubscribe_rate c <= 100)%Q)%nat
  ∧ (EmailCampaign.total_delivered c ≤ EmailCampaign.total_recipients c →
     (0 <= EmailCampaign.get_delivery_rate c <= 100)%Q)%nat
  ∧ (0 < EmailCampaign.total_recipients c →
     EmailCampaign.total_delivered c = EmailCampaign.total_recipients c →
     EmailCampaign.get_delivery_rate c = 100%Q)%nat
  ∧ (EmailCampaign.total_delivered c = 0 → EmailCampaign.get_delivery_rate c = 0%Q).
Proof.
  intros Hrange. unfold counters_in_range, EmailCampaign.counters in Hrange.
  repeat (apply Forall_cons in Hrange as [? Hrange]).
  unfold EmailCampaign.get_open_rate, EmailCampaign.get_click_rate,
    EmailCampaign.get_unsubscribe_rate, EmailCampaign.get_delivery_rate.
  split; [|split; [|split; [|split; [|split]]]].
  1-4: intros Hle; case_bool_decide; [by apply percent_bounds | done].
  - intros Hpos Heq. rewrite bool_decide_eq_true_2 by done.
    rewrite Heq. apply percent_full; [done | by rewrite <- Heq].
  - intros ->. case_bool_decide; [by apply percent_none | done].
Qed.

Lemma campaign_rates_within_0_100_witness :
  (0 <= EmailCampaign.get_open_rate Scenario.measured <= 100)%Q
  ∧ (0 <= EmailCampaign.get_delivery_rate Scenario.measured <= 100)%Q.
Proof.
  assert (counters_in_range Scenario.measured) as Hrange.
  { unfold counters_in_range. repeat constructor; by vm_compute. }
  destruct (campaign_rates_within_0_100 Scenario.measured Hrange)
    as (H1 & _ & _ & H4 & _ & _).
  split; [apply H1 | apply H4]; simpl; lia.
Defined.

(** X5: a subscriber's engagement rate and a form's conversion rate are 0
    when nothing was sent or viewed and otherwise the ratio as a percentage
    rounded to one decimal; they are at most 100 when the numerator does not
    exceed the denominator. *)
Theorem engagement_and_conversion_rates
    (s : NewsletterSubscriber.t) (f : SubscriptionForm.t) :
  (Z.of_nat (NewsletterSubscriber.total_emails_opened s) ≤ 2147483647)%Z →
  (Z.of_nat (SubscriptionForm.total_submissions f) ≤ 2147483647)%Z →
  (NewsletterSubscriber.total_emails_sent s = 0 →
     NewsletterSubscriber.get_engagement_rate s = 0%Q)
  ∧ (0 < NewsletterSubscriber.total_emails_sent s →
     percentage_to_one_decimal (NewsletterSubscriber.total_emails_opened s)
       (NewsletterSubscriber.total_emails_sent s)
       (NewsletterSubscriber.get_engagement_rate s))%nat
  ∧ (NewsletterSubscriber.total_emails_opened s
       ≤ NewsletterSubscriber.total_emails_sent s →
     (0 <= NewsletterSubscriber.get_engagement_rate s <= 100)%Q)%nat
  ∧ (SubscriptionForm.total_views f = 0 →
     SubscriptionForm.get_conversion_rate f = 0%Q)
  ∧ (0 < SubscriptionForm.total_views f →
     percentage_to_one_decimal (SubscriptionForm.total_submissions f)
       (SubscriptionForm.total_views f) (SubscriptionForm.get_conversion_rate f))%nat
  ∧ (SubscriptionForm.total_submissions f ≤ SubscriptionForm.total_views f →
     (0 <= SubscriptionForm.get_conversion_rate f <= 100)%Q)%nat.
Proof.
  intros Hs Hf.
  unfold NewsletterSubscriber.get_engagement_rate, SubscriptionForm.get_conversion_rate.
  split; [|split; [|split; [|split; [|split]]]].
  - intros ->. by rewrite bool_decide_eq_false_2 by lia.
  - intros Hpos. rewrite bool_decide_eq_true_2 by done.
    by apply percent_to_one_decimal.
  - intros Hle. case_bool_decide; [by apply percent_bounds | done].
  - intros ->. by rewrite bool_decide_eq_false_2 by lia.
  - intros Hpos. rewrite bool_decide_eq_true_2 by done.
    by apply percent_to_one_decimal.
  - intros Hle. case_bool_decide; [by apply percent_bounds | done].
Qed.

Lemma engagement_and_conversion_rates_witness :
  NewsletterSubscriber.get_engagement_rate (Scenario.lapsed "f@example.com")
    = (2343279181116211 # 70368744177664)%Q
  ∧ (0 <= NewsletterSubscriber.get_engagement_rate (Scenario.lapsed "f@example.com")
       <= 100)%Q.
Proof.
  split; [by vm_compute|].
  destruct (engagement_and_conversion_rates (Scenario.lapsed "f@example.com")
              (SubscriptionForm.mk 200 13)) as (_ & _ & H3 & _).
  - by vm_compute.
  - by vm_compute.
  - apply H3. simpl. lia.
Defined.

(** ** What a send leaves alone *)

(** The two ways a call of [send_campaign] ends: refused, with the database
    untouched, or sent. *)
Lemma send_campaign_cases env campaign_id w :
  (success (send_campaign env campaign_id w).1 = false
   ∧ (send_campaign env campaign_id w).2 = w)
  ∨ (∃ c, campaigns w !! campaign_id = Some c
          ∧ EmailCampaign.status c = EmailCampaign.draft
          ∧ _get_target_subscribers c w ≠ []
          ∧ success (send_campaign env campaign_id w).1 = true
          ∧ (send_campaign env campaign_id w).2 = after_send env campaign_id c w).
Proof.
  unfold send_campaign.
  destruct (campaigns w !! campaign_id) as [c|] eqn:Hget.
  - destruct (decide (EmailCampaign.status c = EmailCampaign.draft)) as [Hst|Hst].
    + destruct (decide (_get_target_subscribers c w = [])) as [Hempty|Hne].
      * left. by rewrite (send_campaign_body_empty env _ _ c).
      * right. exists c. by rewrite (send_campaign_body_sent env _ _ c).
    + left. by rewrite (send_campaign_body_not_draft env _ _ c).
  - left. by rewrite send_campaign_body_not_found.
Qed.

Lemma send_test_email_frame env campaign_id test_email w :
  (send_test_email env campaign_id test_email w).2 = w.
Proof.
  unfold send_test_email, send_test_email_body, bind, EmailCampaign_objects_get.
  destruct (campaigns w !! campaign_id) as [c|]; [|done].
  destruct (send_to_unsaved_subscriber_raises env campaign_id c
              (NewsletterSubscriber.new test_email "Test" "User") w) as [e ->].
  by rewrite report_raise.
Qed.

(** X6: the ledger is append-only under the service.  Whatever the outcome,
    [send_campaign] keeps every row the ledger held, in place, and what it
    appends are [email_sent] rows of that campaign, each naming a member of
    the resolved audience; [send_test_email] leaves the ledger as it was. *)
Theorem ledger_is_append_only env campaign_id test_email w :
  (∃ new,
     activities (send_campaign env campaign_id w).2 = (activities w ++ new)%list
     ∧ Forall (λ a, is_email_sent_for campaign_id a
                    ∧ ∃ c, campaigns w !! campaign_id = Some c
                           ∧ NewsletterActivity.subscriber a
                               ∈ (_get_target_subscribers c w).*1) new)
  ∧ activities (send_test_email env campaign_id test_email w).2 = activities w.
Proof.
  split; [|by rewrite send_test_email_frame].
  destruct (send_campaign_cases env campaign_id w)
    as [[_ ->]|(c & Hget & _ & _ & _ & ->)].
  - exists []. by rewrite app_nil_r.
  - eexists. split; [done|].
    apply Forall_fmap, Forall_forall. intros [k s] [_ Hin]%list_elem_of_filter.
    split; [done|]. exists c. split; [done|]. simpl.
    apply list_elem_of_fmap. by exists (k, s).
Qed.

(** X7: a send writes one campaign row.  No campaign is created or deleted,
    and every other campaign row is as it was.  In the row of the campaign
    sent, the two [save()]s store the status, the time of sending and the two
    send counters and refresh [updated_at]; the name, the subject, the
    content and its plain text, the sender, the reply address, the
    targeting, the schedule and the counters for deliveries, bounces, opens,
    clicks, unsubscriptions and complaints keep their values. *)
Theorem send_campaign_touches_one_row env campaign_id w :
  dom (campaigns (send_campaign env campaign_id w).2) = dom (campaigns w)
  ∧ (∀ other, other ≠ campaign_id →
       campaigns (send_campaign env campaign_id w).2 !! other = campaigns w !! other)
  ∧ (∀ c, campaigns w !! campaign_id = Some c →
       ∃ c', campaigns (send_campaign env campaign_id w).2 !! campaign_id = Some c'
             ∧ same_outside_send c c').
Proof.
  destruct (send_campaign_cases env campaign_id w)
    as [[_ ->]|(c & Hget & _ & _ & _ & ->)].
  - split; [done|]. split; [done|]. intros c Hget. exists c.
    split; [done|]. by repeat split.
  - unfold after_send. simpl. split; [|split].
    + by apply dom_insert_lookup_L.
    + intros other Hne. by rewrite lookup_insert_ne.
    + intros c0 Hget0. rewrite Hget in Hget0. injection Hget0 as <-.
      eexists. rewrite lookup_insert_eq. split; [done|]. by repeat split.
Qed.

Lemma foldl_credit_cases (l : list (nat * NewsletterSubscriber.t)) table k :
  NoDup l.*1 →
  (∀ k s, (k, s) ∈ l → table !! k = Some s) →
  foldl credit table l !! k = table !! k
  ∨ ∃ s, table !! k = Some s
         ∧ foldl credit table l !! k
             = Some (NewsletterSubscriber.incr_total_emails_sent s).
Proof.
  intros Hnd Hrows.
  destruct (decide (k ∈ l.*1)) as [Hin|Hout].
  - apply list_elem_of_fmap in Hin as ([k' s] & -> & Hin). simpl.
    right. exists s. split; [by apply Hrows | by apply foldl_credit_member].
  - left. by apply foldl_credit_other.
Qed.

(** Crediting does not change who is eligible or interested. *)
Lemma audience_elem_key (c : EmailCampaign.t) (w : World) k :
  k ∈ (_get_target_subscribers c w).*1 ↔
    ∃ s, subscribers w !! k = Some s ∧ base_eligible s ∧
      (EmailCampaign.send_to_all c = true ∨
       ((EmailCampaign.target_categories c = ∅
         ∨ interested_in (EmailCampaign.target_categories c) s) ∧
        (EmailCampaign.target_subscribers c = ∅
         ∨ k ∈ EmailCampaign.target_subscribers c))).
Proof.
  rewrite list_elem_of_fmap. split.
  - intros ([k' s] & -> & Hin). exists s. by apply audience_elem.
  - intros (s & Hs). exists (k, s). split; [done|]. by apply audience_elem.
Qed.

(** X8: a send never adds, removes, unsubscribes or unverifies anybody.
    Each subscriber keeps its address, names, status, interests,
    verification flag and counters of opens and clicks, and its
    [total_emails_sent] either stays or is one higher (the [save()] that
    stores it refreshes [updated_at] as well); so any campaign resolved
    after the send has the audience it would have had before. *)
Theorem send_campaign_keeps_subscribers env campaign_id w :
  (∀ k, subscribers (send_campaign env campaign_id w).2 !! k = subscribers w !! k
        ∨ ∃ s, subscribers w !! k = Some s
               ∧ subscribers (send_campaign env campaign_id w).2 !! k
                   = Some (NewsletterSubscriber.incr_total_emails_sent s))
  ∧ (∀ c k, k ∈ (_get_target_subscribers c (send_campaign env campaign_id w).2).*1
            ↔ k ∈ (_get_target_subscribers c w).*1).
Proof.
  assert (Hrows : ∀ k,
    subscribers (send_campaign env campaign_id w).2 !! k = subscribers w !! k
    ∨ ∃ s, subscribers w !! k = Some s
           ∧ subscribers (send_campaign env campaign_id w).2 !! k
               = Some (NewsletterSubscriber.incr_total_emails_sent s)).
  { intros k.
    destruct (send_campaign_cases env campaign_id w)
      as [[_ ->]|(c & Hget & _ & _ & _ & ->)]; [by left|].
    unfold after_send. simpl. apply foldl_credit_cases.
    - eapply sublist_NoDup; [apply (audience_NoDup c w)|].
      apply fmap_sublist, sublist_filter.
    - intros k' s [_ Hin]%list_elem_of_filter.
      by apply audience_elem in Hin as [? _]. }
  split; [done|].
  intros c k. rewrite !audience_elem_key.
  destruct (Hrows k) as [->|(s & Hs & ->)]; [done|]. rewrite Hs.
  split.
  - intros (s' & [= <-] & Hel & Htarget). exists s. done.
  - intros (s' & [= <-] & Hel & Htarget).
    exists (NewsletterSubscriber.incr_total_emails_sent s). done.
Qed.

(** ** Duplicating campaigns *)

Lemma campaign_insert_fresh (c : EmailCampaign.t) (w : World) :
  campaigns w !! fresh (dom (campaigns w)) = None.
Proof. apply not_elem_of_dom, is_fresh. Qed.

Lemma insert_error_None (row : list Column) :
  insert_error row = None ↔ storable row.
Proof.
  unfold storable. induction row as [|c row IH]; simpl.
  - split; [constructor | done].
  - rewrite Forall_cons. destruct (decide (accepts c)); [tauto|].
    split; [done | tauto].
Qed.



(** The copying loop keeps every row there was and adds copies only, each
    under a key that was free.  When every copy is storable it returns,
    having added one copy per row; otherwise it raises at the first row whose
    copy is refused, having added the copies of the rows before it. *)
Lemma duplicate_loop_spec (rows : list (nat * EmailCampaign.t)) (w : World) :
  subscribers (duplicate_loop rows w).2 = subscribers w
  ∧ activities (duplicate_loop rows w).2 = activities w
  ∧ (∀ k c, campaigns w !! k = Some c →
       campaigns (duplicate_loop rows w).2 !! k = Some c)
  ∧ (∀ k c', campaigns (duplicate_loop rows w).2 !! k = Some c' →
       campaigns w !! k = None →
       ∃ p, p ∈ rows ∧ c' = EmailCampaign.without_links (EmailCampaign.as_copy p.2))
  ∧ (Forall (λ p, storable (EmailCampaign_columns (EmailCampaign.as_copy p.2))) rows →
       (duplicate_loop rows w).1 = inr ()
       ∧ base.size (campaigns (duplicate_loop rows w).2)
           = base.size (campaigns w) + length rows)
  ∧ (∀ before p after, rows = (before ++ p :: after)%list →
       Forall (λ p, storable (EmailCampaign_columns (EmailCampaign.as_copy p.2))) before →
       ¬ storable (EmailCampaign_columns (EmailCampaign.as_copy p.2)) →
       (∃ e, (duplicate_loop rows w).1 = inl e)
       ∧ base.size (campaigns (duplicate_loop rows w).2)
           = base.size (campaigns w) + length before).
Proof.
  revert w. induction rows as [|[k0 c0] rest IH]; intros w.
  - simpl. split; [done|]. split; [done|]. split; [done|]. split.
    { intros k c' Hk Hnone. congruence. }
    split; [intros _; split; [done | lia]|].
    intros before p after Heq. by destruct before.
  - simpl. unfold bind at 1 2 3 4 5 6 7 8, campaign_insert.
    destruct (insert_error (EmailCampaign_columns (EmailCampaign.as_copy c0)))
      as [e|] eqn:Herr.
    + (* the server refuses the first copy *)
      assert (Hbad : ¬ storable (EmailCampaign_columns (EmailCampaign.as_copy c0))).
      { intros Hok. apply insert_error_None in Hok. congruence. }
      unfold raise. simpl.
      split; [done|]. split; [done|]. split; [done|]. split.
      { intros k c' Hk Hnone. congruence. }
      split.
      { intros Hall. apply Forall_cons in Hall as [Hok _]. done. }
      intros before p after Heq Hbefore Hp.
      destruct before as [|p0 before]; simpl in Heq.
      * split; [eauto | simpl; lia].
      * injection Heq as <- _. apply Forall_cons in Hbefore as [Hok _]. done.
    + (* the first copy is stored *)
      apply insert_error_None in Herr.
      set (pk := fresh (dom (campaigns w))).
      set (copy := EmailCampaign.without_links (EmailCampaign.as_copy c0)).
      set (w1 := mkWorld (<[pk := copy]> (campaigns w)) (subscribers w) (activities w)).
      assert (Hfresh : campaigns w !! pk = None) by apply (campaign_insert_fresh c0).
      destruct (IH w1) as (Hsubs & Hacts & Hold & Hnew & Hall & Hfirst).
      destruct (duplicate_loop rest w1) as [out w'] eqn:Hrun. simpl in *.
      split; [done|]. split; [done|].
      assert (Hkeep : ∀ k c, campaigns w !! k = Some c → campaigns w' !! k = Some c).
      { intros k c Hk. apply Hold.
        rewrite lookup_insert_ne; [done | congruence]. }
      split; [done|]. split.
      { intros k c' Hk Hnone.
        destruct (decide (k = pk)) as [->|Hne].
        - exists (k0, c0). split; [left|].
          assert (campaigns w' !! pk = Some copy) as Hcopy.
          { apply Hold. by rewrite lookup_insert_eq. }
          simpl. fold copy. congruence.
        - destruct (Hnew k c' Hk) as (p & Hp & ->).
          { by rewrite lookup_insert_ne. }
          exists p. split; [by right | done]. }
      split.
      { intros Hfit. apply Forall_cons in Hfit as [_ Hfit].
        destruct (Hall Hfit) as [-> Hsize]. split; [done|].
        rewrite Hsize, map_size_insert_None by done. lia. }
      intros before p after Heq Hbefore Hp.
      destruct before as [|p0 before]; simpl in Heq.
      * injection Heq as <- _. done.
      * injection Heq as <- Heq. apply Forall_cons in Hbefore as [_ Hbefore].
        destruct (Hfirst before p after Heq Hbefore Hp) as [He Hsize].
        split; [done|]. rewrite Hsize, map_size_insert_None by done. simpl. lia.
Qed.

(** The action is its loop, then the message. *)
Lemma duplicate_campaign_run (queryset : World → list (nat * EmailCampaign.t)) w :
  (duplicate_campaign queryset w).2 = (duplicate_loop (queryset w) w).2
  ∧ (duplicate_campaign queryset w).1
      = match (duplicate_loop (queryset w) w).1 with
        | inr _ => inr (pretty (length (queryset w)) +:+ " campaigns duplicated.")
        | inl e => inl e
        end.
Proof.
  unfold duplicate_campaign, bind, query, ret.
  by destruct (duplicate_loop (queryset w) w) as [[e|[]] w'].
Qed.





(** X12: a copy goes to everybody.  Because the links are not copied,
    resolving the audience of a copy yields every active, verified
    subscriber, whatever interest tags or explicit list narrowed the
    original. *)
Theorem duplicate_resolves_to_every_eligible_subscriber
    (selected : gset nat) (w : World) k c' :
  campaigns (duplicate_campaign (selected_campaigns selected) w).2 !! k = Some c' →
  campaigns w !! k = None →
  _get_target_subscribers c' (duplicate_campaign (selected_campaigns selected) w).2
    = filter (λ p, base_eligible p.2) (map_to_list (subscribers w)).
Proof.
  destruct (duplicate_loop_spec (selected_campaigns selected w) w)
    as (Hsubs & _ & _ & Hnew & _ & _).
  destruct (duplicate_campaign_run (selected_campaigns selected) w) as [-> _].
  intros Hk Hnone.
  destruct (Hnew k c' Hk Hnone) as ([k0 c0] & _ & ->).
  unfold _get_target_subscribers. rewrite Hsubs. simpl.
  rewrite m2m_exists_empty. by destruct (EmailCampaign.send_to_all c0).
Qed.

(** The original is resolved to nobody (tag 1 and list {2}, on two readers of
    which the first has the tag and the second is listed); its copy is
    resolved to both readers. *)
Lemma duplicate_resolves_witness :
  _get_target_subscribers Scenario.tags_and_list
    (Scenario.two_readers Scenario.tags_and_list) = []
  ∧ _get_target_subscribers
      (EmailCampaign.without_links (EmailCampaign.as_copy Scenario.tags_and_list))
      (duplicate_campaign (selected_campaigns {[ 1 ]})
         (Scenario.two_readers Scenario.tags_and_list)).2
    = filter (λ p, base_eligible p.2)
        (map_to_list (subscribers (Scenario.two_readers Scenario.tags_and_list)))
  ∧ filter (λ p, base_eligible p.2)
      (map_to_list (subscribers (Scenario.two_readers Scenario.tags_and_list)))
    = [(2, Scenario.reader "bob@example.com" ∅);
       (1, Scenario.reader "ada@example.com" {[ 1 ]})].
Proof.
  split; [by vm_compute|]. split; [|by vm_compute].
  apply (duplicate_resolves_to_every_eligible_subscriber {[ 1 ]}
           (Scenario.two_readers Scenario.tags_and_list) 2); by vm_compute.
Defined.

(** ** One default template per type *)

(** The key [save_model] writes. *)
Lemma save_model_lookup pk obj (templates : gmap nat EmailTemplate.t) :
  ∃ key, (∀ k, pk = Some k → key = k)
    ∧ (pk = None → templates !! key = None)
    ∧ save_model pk obj templates !! key = Some obj
    ∧ ∀ k, k ≠ key →
        save_model pk obj templates !! k
          = (λ x, if bool_decide
                       (EmailTemplate.is_default obj = true
                        ∧ EmailTemplate.template_type x = EmailTemplate.template_type obj
                        ∧ EmailTemplate.is_default x = true)
                  then EmailTemplate.clear_default x else x) <$> templates !! k.
Proof.
  unfold save_model.
  destruct (EmailTemplate.is_default obj) eqn:Hdef.
  - set (cleared := map_imap _ templates).
    assert (Hdom : ∀ k, cleared !! k = None ↔ templates !! k = None).
    { intros k. unfold cleared. rewrite map_lookup_imap.
      destruct (templates !! k); simpl; split; done. }
    exists (match pk with Some pk => pk | None => fresh (dom cleared) end).
    split; [by intros k ->|]. split.
    { intros ->. apply Hdom, not_elem_of_dom, is_fresh. }
    split; [by rewrite lookup_insert_eq|].
    intros k Hne. rewrite lookup_insert_ne by done.
    unfold cleared. rewrite map_lookup_imap.
    destruct (templates !! k) as [x|]; simpl; [|done].
    f_equal. repeat case_bool_decide; try done;
      exfalso; destruct pk as [k'|]; simpl in *; intuition congruence.
  - exists (match pk with Some pk => pk | None => fresh (dom templates) end).
    split; [by intros k ->|]. split.
    { intros ->. apply not_elem_of_dom, is_fresh. }
    split; [by rewrite lookup_insert_eq|].
    intros k Hne. rewrite lookup_insert_ne by done.
    destruct (templates !! k) as [x|]; simpl; [|done].
    done.
Qed.

(** X13: saving a template through the admin keeps the rule "at most one
    default template per type": if the table satisfies it, it still does
    after [save_model], for a template that is added or edited, default or
    not. *)
Theorem save_model_keeps_one_default pk obj (templates : gmap nat EmailTemplate.t) :
  one_default_per_type templates →
  one_default_per_type (save_model pk obj templates).
Proof.
  intros Hinv k1 k2 x1 x2 H1 H2 Hd1 Hd2 Htype.
  destruct (save_model_lookup pk obj templates) as (key & _ & _ & Hkey & Hother).
  destruct (decide (k1 = key)) as [->|Hne1], (decide (k2 = key)) as [->|Hne2];
    [done| | |].
  - rewrite Hkey in H1. injection H1 as <-.
    rewrite Hother in H2 by done.
    destruct (templates !! k2) as [y|]; simpl in H2; [|done].
    injection H2 as <-. case_bool_decide as Hc.
    + done.
    + destruct Hc. repeat split; congruence.
  - rewrite Hkey in H2. injection H2 as <-.
    rewrite Hother in H1 by done.
    destruct (templates !! k1) as [y|]; simpl in H1; [|done].
    injection H1 as <-. case_bool_decide as Hc.
    + done.
    + destruct Hc. repeat split; congruence.
  - rewrite Hother in H1, H2 by done.
    destruct (templates !! k1) as [y1|] eqn:Hy1; simpl in H1; [|done].
    destruct (templates !! k2) as [y2|] eqn:Hy2; simpl in H2; [|done].
    injection H1 as <-. injection H2 as <-.
    repeat case_bool_decide; try done.
    by apply (Hinv k1 k2 y1 y2).
Qed.

Lemma save_model_keeps_one_default_witness :
  one_default_per_type Scenario.templates
  ∧ one_default_per_type
      (save_model (Some 2)
         (EmailTemplate.mk "Welcome, short" EmailTemplate.welcome "Hi" true true 0)
         Scenario.templates).
Proof.
  assert (one_default_per_type Scenario.templates) as Hinv.
  { intros k1 k2 x1 x2 H1 H2 Hd1 Hd2 Htype.
    apply elem_of_map_to_list in H1, H2.
    eassert (map_to_list Scenario.templates = _) as Hl by (vm_compute; reflexivity).
    rewrite Hl in H1, H2. rewrite !elem_of_cons, elem_of_nil in H1, H2.
    destruct H1 as [[= -> ->]|[[= -> ->]|[[= -> ->]|[]]]];
      destruct H2 as [[= -> ->]|[[= -> ->]|[[= -> ->]|[]]]];
      done. }
  split; [exact Hinv|].
  by apply (save_model_keeps_one_default (Some 2)).
Defined.

(** X14: saving a default template makes it the only default of its type,
    whatever the table held before: every other template of the type ends
    non-default.  Templates of other types, and all templates when the one
    saved is not a default, keep their rows; no template is removed. *)
Theorem save_model_makes_the_only_default pk obj (templates : gmap nat EmailTemplate.t) :
  (EmailTemplate.is_default obj = true →
   ∀ k1 k2 x1 x2,
     save_model pk obj templates !! k1 = Some x1 →
     save_model pk obj templates !! k2 = Some x2 →
     EmailTemplate.template_type x1 = EmailTemplate.template_type obj →
     EmailTemplate.template_type x2 = EmailTemplate.template_type obj →
     EmailTemplate.is_default x1 = true → EmailTemplate.is_default x2 = true →
     k1 = k2 ∧ x1 = obj)
  ∧ (∀ k x, templates !! k = Some x → Some k ≠ pk →
       (EmailTemplate.is_default obj = false
        ∨ EmailTemplate.template_type x ≠ EmailTemplate.template_type obj) →
       save_model pk obj templates !! k = Some x)
  ∧ dom templates ⊆ dom (save_model pk obj templates).
Proof.
  destruct (save_model_lookup pk obj templates) as (key & Hpk & Hnone & Hkey & Hother).
  assert (Hcleared : ∀ k x, k ≠ key → EmailTemplate.is_default obj = true →
            save_model pk obj templates !! k = Some x →
            EmailTemplate.template_type x = EmailTemplate.template_type obj →
            EmailTemplate.is_default x = true → False).
  { intros k x Hne Hdef Hk Htype Hd. rewrite Hother in Hk by done.
    destruct (templates !! k) as [y|]; simpl in Hk; [|done].
    injection Hk as <-. case_bool_decide as Hc; [done|].
    destruct Hc. done. }
  split; [|split].
  - intros Hdef k1 k2 x1 x2 H1 H2 T1 T2 D1 D2.
    destruct (decide (k1 = key)) as [->|Hne1]; [|by destruct (Hcleared k1 x1)].
    destruct (decide (k2 = key)) as [->|Hne2]; [|by destruct (Hcleared k2 x2)].
    split; [done | congruence].
  - intros k x Hk Hne Hcase.
    assert (k ≠ key) as Hkey'.
    { intros ->. destruct pk as [k'|].
      - specialize (Hpk k' eq_refl). congruence.
      - rewrite Hnone in Hk; done. }
    rewrite Hother, Hk by done. simpl. f_equal.
    rewrite bool_decide_eq_false_2; [done|].
    intros (Hd & Ht & _). destruct Hcase; congruence.
  - intros k [x Hk]%elem_of_dom. apply elem_of_dom.
    destruct (decide (k = key)) as [->|Hne]; [by rewrite Hkey|].
    rewrite Hother, Hk by done. done.
Qed.

(** ** Unsubscribing *)

(** X15: a subscriber who unsubscribed is never targeted again.  After
    [unsubscribe], whether or not the ledger took the log row, the
    subscriber is in the audience of no campaign, whatever its targeting;
    the time of unsubscription is recorded; every other subscriber and
    every campaign is as before. *)
Theorem unsubscribed_is_never_targeted env pk self extra reason st :
  (∀ c, pk ∉ (_get_target_subscribers c
                (db (unsubscribe env pk self extra reason st).2)).*1)
  ∧ extras (unsubscribe env pk self extra reason st).2 !! pk
      = Some (mkExtra (frequency_preference extra) (Some (now env)))
  ∧ (∀ k, k ≠ pk →
       subscribers (db (unsubscribe env pk self extra reason st).2) !! k
         = subscribers (db st) !! k)
  ∧ campaigns (db (unsubscribe env pk self extra reason st).2) = campaigns (db st).
Proof.
  unfold unsubscribe, activity_create, raise. simpl.
  destruct (ledger_insert env _); simpl.
  all: split; [|split; [by rewrite lookup_insert_eq|split; [|done]]].
  all: try (intros k Hne; by rewrite lookup_insert_ne).
  all: intros c (row & Hrow & [Hactive _] & _)%audience_elem_key; simpl in Hrow;
    rewrite lookup_insert_eq in Hrow; injection Hrow as <-; done.
Qed.

(** X16: [unsubscribe] saves before it logs and nothing undoes the save.
    When the ledger takes the row, the call returns and the ledger ends with
    one more row, an [unsubscription] of that subscriber with no campaign and
    the reason in its description.  When the ledger refuses, the call raises
    the database error and the ledger is unchanged, but the subscriber's row
    already says [unsubscribed]. *)
Theorem unsubscribe_saves_then_logs env pk self extra reason st :
  subscribers (db (unsubscribe env pk self extra reason st).2) !! pk
    = Some (NewsletterSubscriber.set_status NewsletterSubscriber.unsubscribed self)
  ∧ match ledger_insert env
            (NewsletterActivity.mk pk None NewsletterActivity.unsubscription
               ("Unsubscribed: " +:+ reason) EmptyString (now env)) with
    | None =>
        (unsubscribe env pk self extra reason st).1 = inr ()
        ∧ activities (db (unsubscribe env pk self extra reason st).2)
            = (activities (db st)
               ++ [NewsletterActivity.mk pk None NewsletterActivity.unsubscription
                     ("Unsubscribed: " +:+ reason) EmptyString (now env)])%list
    | Some msg =>
        (unsubscribe env pk self extra reason st).1 = inl (DatabaseError msg)
        ∧ activities (db (unsubscribe env pk self extra reason st).2)
            = activities (db st)
    end.
Proof.
  unfold unsubscribe, activity_create, raise. simpl.
  destruct (ledger_insert env _); simpl; by rewrite lookup_insert_eq.
Qed.

(** ** Subscribing *)

Lemma notifications_never_raise env venv s w :
  send_admin_notification env venv s w = (inr (), w)
  ∧ send_welcome_email env venv s w = (inr (), w).
Proof.
  unfold send_admin_notification, send_welcome_email, try_except, send_mail,
    email_send, raise, ret.
  split; by destruct (transport env _).
Qed.

Lemma email_exists_true email w :
  email_exists email w = true ↔
    ∃ k s, subscribers w !! k = Some s ∧ NewsletterSubscriber.email s = email.
Proof.
  unfold email_exists. rewrite bool_decide_eq_true. split.
  - intros Hne.
    destruct (filter _ (map_to_list (subscribers w))) as [|[k s] l] eqn:Hf; [done|].
    assert ((k, s) ∈ filter (λ p, NewsletterSubscriber.email p.2 = email)
                       (map_to_list (subscribers w))) as Hin
      by (rewrite Hf; left).
    apply list_elem_of_filter in Hin as [Hemail Hin].
    apply elem_of_map_to_list in Hin. by exists k, s.
  - intros (k & s & Hk & Hemail) Hnil.
    apply (filter_nil_not_elem_of _ _ (k, s)) in Hnil; [|done].
    apply Hnil. by apply elem_of_map_to_list.
Qed.

(** What the subscription request does once its address is accepted and the
    server takes the row. *)
Lemma subscribe_accepted env venv (POST : gmap string string) st :
  let email := str_lower venv (str_strip venv (default EmptyString (POST !! "email"))) in
  let subscriber :=
    NewsletterSubscriber.mk email
      (str_strip venv (default EmptyString (POST !! "first_name")))
      (str_strip venv (default EmptyString (POST !! "last_name")))
      NewsletterSubscriber.active ∅ 0 0 0 true in
  let extra := mkExtra (default "weekly" (POST !! "frequency_preference")) None in
  let pk := fresh (dom (subscribers (db st))) in
  email ≠ EmptyString → email_exists email (db st) = false →
  storable (NewsletterSubscriber_columns subscriber extra) →
  SubscribeView_post env venv POST st
    = (mkJson true
         ("Thank you for subscribing, "
          +:+ NewsletterSubscriber.get_full_name subscriber
          +:+ "! You will receive our newsletter updates."),
       mkSite
         (mkWorld (campaigns (db st)) (<[pk := subscriber]> (subscribers (db st)))
                  (activities (db st)))
         (<[pk := extra]> (extras st))).
Proof.
  intros email subscriber extra pk Hne Hnew Hfits.
  assert (Hnul : Str.has_nul email = false).
  { unfold storable, NewsletterSubscriber_columns in Hfits.
    apply Forall_cons in Hfits as [[_ Hnul] _]. exact Hnul. }
  apply insert_error_None in Hfits.
  unfold SubscribeView_post, SubscribeView_post_body. fold email.
  destruct email as [|a e] eqn:He; [done|]. rewrite Hnul, Hnew.
  fold subscriber. fold extra. rewrite Hfits.
  unfold bind.
  destruct (notifications_never_raise env venv subscriber
              (mkWorld (campaigns (db st)) (<[pk := subscriber]> (subscribers (db st)))
                       (activities (db st)))) as [Ha Hw].
  fold pk. rewrite Ha, Hw. done.
Qed.

(** ... and when the address cannot go into the query or the server refuses
    the row. *)
Lemma subscribe_refused env venv (POST : gmap string string) st :
  let email := str_lower venv (str_strip venv (default EmptyString (POST !! "email"))) in
  let subscriber :=
    NewsletterSubscriber.mk email
      (str_strip venv (default EmptyString (POST !! "first_name")))
      (str_strip venv (default EmptyString (POST !! "last_name")))
      NewsletterSubscriber.active ∅ 0 0 0 true in
  let extra := mkExtra (default "weekly" (POST !! "frequency_preference")) None in
  email ≠ EmptyString →
  Str.has_nul email = true
  ∨ (email_exists email (db st) = false
     ∧ ¬ storable (NewsletterSubscriber_columns subscriber extra)) →
  SubscribeView_post env venv POST st
    = (mkJson false "An error occurred. Please try again.", st).
Proof.
  intros email subscriber extra Hne Hbad.
  unfold SubscribeView_post, SubscribeView_post_body. fold email.
  destruct email as [|a e] eqn:He; [done|].
  destruct (Str.has_nul (String a e)) eqn:Hnul; [done|].
  destruct Hbad as [?|[Hnew Hbad]]; [done|]. rewrite Hnew.
  fold subscriber. fold extra.
  destruct (insert_error (NewsletterSubscriber_columns subscriber extra)) eqn:Herr;
    [done|].
  by apply insert_error_None in Herr.
Qed.

(** A request changes nothing, or it is accepted and stored. *)
Lemma subscribe_cases env venv (POST : gmap string string) st :
  let email := str_lower venv (str_strip venv (default EmptyString (POST !! "email"))) in
  let subscriber :=
    NewsletterSubscriber.mk email
      (str_strip venv (default EmptyString (POST !! "first_name")))
      (str_strip venv (default EmptyString (POST !! "last_name")))
      NewsletterSubscriber.active ∅ 0 0 0 true in
  let extra := mkExtra (default "weekly" (POST !! "frequency_preference")) None in
  ((SubscribeView_post env venv POST st).2 = st
   ∧ json_success (SubscribeView_post env venv POST st).1 = false)
  ∨ (email ≠ EmptyString ∧ email_exists email (db st) = false
     ∧ storable (NewsletterSubscriber_columns subscriber extra)).
Proof.
  intros email subscriber extra.
  destruct (decide (email = EmptyString)) as [Hempty|Hne].
  - left. unfold SubscribeView_post, SubscribeView_post_body.
    fold email. by rewrite Hempty.
  - destruct (Str.has_nul email) eqn:Hnul.
    { left. rewrite subscribe_refused; [done | done | by left]. }
    destruct (email_exists email (db st)) eqn:Hdup.
    + left. unfold SubscribeView_post, SubscribeView_post_body. fold email.
      destruct email; [done|]. by rewrite Hnul, Hdup.
    + destruct (decide (storable (NewsletterSubscriber_columns subscriber extra)))
        as [Hfits|Hbad]; [by right|].
      left. rewrite subscribe_refused; [done | done | by right].
Qed.



(** A first name of 101 letters: the address is new and well formed, the
    server refuses the row, and the view reports an error without storing
    anything. *)
Example subscribe_with_a_long_name_fails :
  SubscribeView_post Scenario.postman Scenario.view_env
    {[ "email" := "zoe@example.com";
       "first_name" := String.string_of_list_ascii (replicate 101 "z"%char) ]}
    Scenario.site
  = (mkJson false "An error occurred. Please try again.", Scenario.site).
Proof. by vm_compute. Qed.

(** Distinct addresses along the table are distinct addresses by key. *)
Lemma emails_unique_NoDup (w : World) :
  NoDup ((λ p, NewsletterSubscriber.email p.2) <$> map_to_list (subscribers w)) →
  emails_unique w.
Proof.
  intros Hnd k1 k2 s1 s2 H1 H2 Hemail.
  apply elem_of_map_to_list, list_elem_of_lookup in H1 as [i Hi].
  apply elem_of_map_to_list, list_elem_of_lookup in H2 as [j Hj].
  assert (i = j) as ->.
  { eapply (NoDup_lookup _ i j); [exact Hnd| |];
      rewrite list_lookup_fmap; [rewrite Hi | rewrite Hj]; simpl; [done|].
    by rewrite Hemail. }
  congruence.
Qed.

(** X18: subscription requests keep addresses unique: if no two subscribers
    share an address before the request, none do after it. *)
Theorem subscribe_keeps_emails_unique env venv (POST : gmap string string) st :
  emails_unique (db st) →
  emails_unique (db (SubscribeView_post env venv POST st).2).
Proof.
  intros Huniq.
  set (email := str_lower venv (str_strip venv (default EmptyString (POST !! "email")))).
  destruct (subscribe_cases env venv POST st) as [[-> _]|(Hne & Hnew & Hfits)]; [done|].
  rewrite subscribe_accepted by done. simpl.
  intros k1 k2 s1 s2 H1 H2 Hemail. simpl in H1, H2.
  set (pk := fresh (dom (subscribers (db st)))) in *.
  assert (Hfresh : ∀ k s, subscribers (db st) !! k = Some s →
            NewsletterSubscriber.email s ≠ email).
  { intros k s Hk Heq.
    assert (email_exists email (db st) = true) as Hex
      by (apply email_exists_true; eauto).
    fold email in Hnew. congruence. }
  destruct (decide (k1 = pk)) as [->|Hne1], (decide (k2 = pk)) as [->|Hne2]; [done| | |].
  - rewrite lookup_insert_eq in H1. rewrite lookup_insert_ne in H2 by done.
    injection H1 as <-. simpl in Hemail. by destruct (Hfresh k2 s2).
  - rewrite lookup_insert_eq in H2. rewrite lookup_insert_ne in H1 by done.
    injection H2 as <-. simpl in Hemail. by destruct (Hfresh k1 s1).
  - rewrite lookup_insert_ne in H1, H2 by done. by apply (Huniq k1 k2 s1 s2).
Qed.

(** Six subscribers with six addresses, and a request with a seventh: the
    request is accepted and the seven addresses are distinct.  A second
    request with the same address finds it taken. *)
Lemma subscribe_keeps_emails_unique_witness :
  base.size (subscribers (db Scenario.site)) = 6
  ∧ emails_unique (db Scenario.site)
  ∧ base.size
      (subscribers
         (db (SubscribeView_post Scenario.postman Scenario.view_env
                {[ "email" := "zoe@example.com" ]} Scenario.site).2)) = 7
  ∧ emails_unique
      (db (SubscribeView_post Scenario.postman Scenario.view_env
             {[ "email" := "zoe@example.com" ]} Scenario.site).2)
  ∧ (SubscribeView_post Scenario.postman Scenario.view_env
       {[ "email" := "zoe@example.com" ]}
       (SubscribeView_post Scenario.postman Scenario.view_env
          {[ "email" := "zoe@example.com" ]} Scenario.site).2).1
    = mkJson false "This email is already subscribed".
Proof.
  assert (emails_unique (db Scenario.site)) as Huniq.
  { apply emails_unique_NoDup. apply (bool_decide_unpack _). by vm_compute. }
  split; [by vm_compute|]. split; [exact Huniq|]. split; [by vm_compute|].
  split; [|by vm_compute].
  by apply (subscribe_keeps_emails_unique Scenario.postman Scenario.view_env).
Defined.

(** X19: a new subscriber is targeted at once.  The view stores the
    subscriber as active and already verified, so after a request that
    succeeded the newcomer is in the audience of every campaign sent to
    all. *)
Theorem new_subscriber_is_targeted_at_once env venv (POST : gmap string string) st :
  json_success (SubscribeView_post env venv POST st).1 = true →
  ∃ pk s,
    subscribers (db st) !! pk = None
    ∧ subscribers (db (SubscribeView_post env venv POST st).2) !! pk = Some s
    ∧ NewsletterSubscriber.email s
        = str_lower venv (str_strip venv (default EmptyString (POST !! "email")))
    ∧ ∀ c, EmailCampaign.send_to_all c = true →
           (pk, s) ∈ _get_target_subscribers c
                       (db (SubscribeView_post env venv POST st).2).
Proof.
  intros Hok.
  destruct (subscribe_cases env venv POST st) as [[_ Hfail]|(Hne & Hnew & Hfits)];
    [congruence|].
  rewrite subscribe_accepted by done. simpl.
  eexists _, _. split; [apply not_elem_of_dom, is_fresh|].
  split; [by rewrite lookup_insert_eq|]. split; [done|].
  intros c Hall. apply audience_elem. simpl.
  rewrite lookup_insert_eq. split; [done|]. split; [done|]. by left.
Qed.

Lemma new_subscriber_is_targeted_witness :
  json_success
    (SubscribeView_post Scenario.postman Scenario.view_env
       {[ "email" := "zoe@example.com"; "first_name" := "Zoe" ]} Scenario.site).1 = true
  ∧ ∃ pk s,
      subscribers (db Scenario.site) !! pk = None
      ∧ subscribers
          (db (SubscribeView_post Scenario.postman Scenario.view_env
                 {[ "email" := "zoe@example.com"; "first_name" := "Zoe" ]}
                 Scenario.site).2) !! pk = Some s
      ∧ NewsletterSubscriber.email s = "zoe@example.com".
Proof.
  assert (json_success
    (SubscribeView_post Scenario.postman Scenario.view_env
       {[ "email" := "zoe@example.com"; "first_name" := "Zoe" ]} Scenario.site).1 = true)
    as Hok by (by vm_compute).
  split; [exact Hok|].
  destruct (new_subscriber_is_targeted_at_once Scenario.postman Scenario.view_env
              {[ "email" := "zoe@example.com"; "first_name" := "Zoe" ]}
              Scenario.site Hok) as (pk & s & H1 & H2 & H3 & _).
  exists pk, s. split; [done|]. split; [done|]. rewrite H3. by vm_compute.
Defined.

(** ** Activating and deactivating subscribers in the admin *)

Lemma update_status_lookup (selected : gset nat) st w k :
  subscribers (subscribers_update_status selected st w).2 !! k
    = (λ s, if bool_decide (k ∈ selected)
            then NewsletterSubscriber.set_status st s else s) <$> subscribers w !! k.
Proof.
  unfold subscribers_update_status. simpl. rewrite map_lookup_imap.
  by destruct (subscribers w !! k).
Qed.

Lemma admin_action_world (selected : gset nat) w :
  (activate_subscribers selected w).2
    = (subscribers_update_status selected NewsletterSubscriber.active w).2
  ∧ (deactivate_subscribers selected w).2
    = (subscribers_update_status selected NewsletterSubscriber.unsubscribed w).2.
Proof. done. Qed.

(** X20: subscribers deactivated in the admin are never targeted again, and
    the action leaves no other trace: every selected subscriber is outside
    the audience of every campaign afterwards, subscribers that were not
    selected keep their rows, and neither the ledger nor any campaign
    changes. *)
Theorem deactivated_subscribers_are_never_targeted (selected : gset nat) (w : World) :
  (∀ c k, k ∈ selected →
     k ∉ (_get_target_subscribers c (deactivate_subscribers selected w).2).*1)
  ∧ (∀ k, k ∉ selected →
       subscribers (deactivate_subscribers selected w).2 !! k = subscribers w !! k)
  ∧ activities (deactivate_subscribers selected w).2 = activities w
  ∧ campaigns (deactivate_subscribers selected w).2 = campaigns w.
Proof.
  destruct (admin_action_world selected w) as [_ ->].
  split; [|split; [|done]].
  - intros c k Hsel (s & Hs & [Hactive _] & _)%audience_elem_key.
    rewrite update_status_lookup in Hs.
    destruct (subscribers w !! k) as [s0|]; simpl in Hs; [|done].
    rewrite bool_decide_eq_true_2 in Hs by done. injection Hs as <-. done.
  - intros k Hout. rewrite update_status_lookup.
    destruct (subscribers w !! k) as [s0|]; simpl; [|done].
    by rewrite bool_decide_eq_false_2.
Qed.

(** X21: activating does not verify.  After [activate_subscribers], a
    selected subscriber is in the audience of a campaign sent to all exactly
    when its address was verified already; the action changes the status
    column only. *)
Theorem activation_does_not_verify (selected : gset nat) (w : World) c k s :
  k ∈ selected → subscribers w !! k = Some s →
  EmailCampaign.send_to_all c = true →
  subscribers (activate_subscribers selected w).2 !! k
    = Some (NewsletterSubscriber.set_status NewsletterSubscriber.active s)
  ∧ (k ∈ (_get_target_subscribers c (activate_subscribers selected w).2).*1
     ↔ NewsletterSubscriber.is_verified s = true).
Proof.
  intros Hsel Hs Hall.
  destruct (admin_action_world selected w) as [-> _].
  assert (Hrow : subscribers
                   (subscribers_update_status selected NewsletterSubscriber.active w).2 !! k
                 = Some (NewsletterSubscriber.set_status NewsletterSubscriber.active s)).
  { rewrite update_status_lookup, Hs. simpl. by rewrite bool_decide_eq_true_2. }
  split; [done|].
  rewrite audience_elem_key, Hrow. split.
  - intros (s' & [= <-] & [_ Hver] & _). done.
  - intros Hver. eexists. split; [done|]. split; [done|]. by left.
Qed.

(** Subscriber 6 of [five_readers] had unsubscribed but was verified:
    activating puts it back in the audience. *)
Lemma activation_does_not_verify_witness :
  subscribers (activate_subscribers {[ 6 ]} Scenario.draft_world).2 !! 6
    = Some (NewsletterSubscriber.set_status NewsletterSubscriber.active
              (Scenario.lapsed "f@example.com"))
  ∧ (6 ∈ (_get_target_subscribers (Scenario.to_all EmailCampaign.draft)
            (activate_subscribers {[ 6 ]} Scenario.draft_world).2).*1
     ↔ NewsletterSubscriber.is_verified (Scenario.lapsed "f@example.com") = true).
Proof.
  apply (activation_does_not_verify {[ 6 ]} Scenario.draft_world
           (Scenario.to_all EmailCampaign.draft) 6 (Scenario.lapsed "f@example.com"));
    by vm_compute.
Defined.

(** ** A sent campaign stays sent *)

(** Ledger rows of another campaign do not count for this one. *)
Lemma email_sent_rows_of_other_campaign env campaign_id other c
    (l : list (nat * NewsletterSubscriber.t)) :
  other ≠ campaign_id →
  filter (is_email_sent_for campaign_id) (activity_row env other c <$> l) = [].
Proof.
  intros Hne. induction l as [|p l IH]; [done|].
  rewrite fmap_cons, filter_cons_False; [done|].
  intros [_ Hc]. simpl in Hc. congruence.
Qed.

(** One operation on a database in which the campaign is not a draft: the
    campaign row and the number of its [email_sent] rows are as before. *)
Lemma perform_keeps_sent_campaign (op : Operation) (st : Site) campaign_id c :
  campaigns (db st) !! campaign_id = Some c →
  EmailCampaign.status c ≠ EmailCampaign.draft →
  campaigns (db (perform op st)) !! campaign_id = Some c
  ∧ email_sent_count campaign_id (db (perform op st))
      = email_sent_count campaign_id (db st).
Proof.
  intros Hget Hst. destruct op as [env id|env id addr|sel|sel|sel|env pk reason|env venv POST];
    simpl.
  - (* send_campaign *)
    destruct (decide (id = campaign_id)) as [->|Hne].
    + unfold send_campaign.
      by rewrite (send_campaign_body_not_draft env _ _ c).
    + destruct (send_campaign_cases env id (db st))
        as [[_ ->]|(c0 & Hget0 & _ & _ & _ & ->)]; [done|].
      unfold after_send, email_sent_count. simpl.
      rewrite lookup_insert_ne by done. split; [done|].
      by rewrite filter_app, email_sent_rows_of_other_campaign, app_nil_r.
  - (* send_test_email *)
    by rewrite send_test_email_frame.
  - (* duplicate_campaign *)
    destruct (duplicate_loop_spec (selected_campaigns sel (db st)) (db st))
      as (_ & Hacts & Hold & _).
    destruct (duplicate_campaign_run (selected_campaigns sel) (db st)) as [-> _].
    split; [by apply Hold|]. unfold email_sent_count. by rewrite Hacts.
  - (* activate_subscribers *) done.
  - (* deactivate_subscribers *) done.
  - (* unsubscribe *)
    destruct (subscribers (db st) !! pk) as [self|]; [|done].
    destruct (extras st !! pk) as [extra|]; [|done].
    unfold unsubscribe, activity_create, raise, email_sent_count. simpl.
    destruct (ledger_insert env _); simpl; [done|].
    split; [done|]. rewrite filter_app, filter_cons_False, app_nil_r; [done|].
    by intros [? _].
  - (* SubscribeView.post *)
    destruct (subscribe_cases env venv POST st) as [[-> _]|(Hne & Hnew & Hfits)]; [done|].
    by rewrite subscribe_accepted.
Qed.

Lemma perform_all_keeps_sent_campaign (ops : list Operation) (st : Site) campaign_id c :
  campaigns (db st) !! campaign_id = Some c →
  EmailCampaign.status c ≠ EmailCampaign.draft →
  campaigns (db (perform_all ops st)) !! campaign_id = Some c
  ∧ email_sent_count campaign_id (db (perform_all ops st))
      = email_sent_count campaign_id (db st).
Proof.
  revert st. induction ops as [|op ops IH]; intros st Hget Hst; [done|].
  destruct (perform_keeps_sent_campaign op st campaign_id c Hget Hst) as [Hget' Hcount].
  unfold perform_all. simpl. fold (perform_all ops (perform op st)).
  destruct (IH (perform op st) Hget' Hst) as [Hget'' Hcount'].
  split; [done | congruence].
Qed.

(** X9: a sent campaign stays sent under the service, the admin actions and
    the subscription calls.  After a [send_campaign] that reported success,
    and after any further sequence of [send_campaign], [send_test_email],
    [duplicate_campaign], [activate_subscribers], [deactivate_subscribers],
    [unsubscribe] and [SubscribeView.post], the campaign row is the one the
    send left, with status [sent]; a new [send_campaign] on it, whatever the
    transport does, is refused with the not-a-draft message and changes
    nothing; and the ledger holds as many [email_sent] rows for the campaign
    as the send left.  Other writers of the campaign table are outside the
    statement: setting the status back to draft on the admin's change form
    makes the campaign sendable again. *)
Theorem sent_campaign_cannot_be_resent env env' campaign_id st c
    (ops : list Operation) :
  campaigns (db st) !! campaign_id = Some c →
  success (send_campaign env campaign_id (db st)).1 = true →
  let sent := perform (SendCampaign env campaign_id) st in
  let later := perform_all ops sent in
  (∃ c', campaigns (db sent) !! campaign_id = Some c'
         ∧ EmailCampaign.status c' = EmailCampaign.sent
         ∧ campaigns (db later) !! campaign_id = Some c')
  ∧ send_campaign env' campaign_id (db later)
      = (mkResult false (not_draft_message c) None None, db later)
  ∧ email_sent_count campaign_id (db later) = email_sent_count campaign_id (db sent).
Proof.
  intros Hget Hok sent later.
  destruct (send_campaign_cases env campaign_id (db st))
    as [[Hfail _]|(c0 & Hget0 & _ & _ & _ & Hw)]; [congruence|].
  rewrite Hget in Hget0. injection Hget0 as <-.
  set (c' := EmailCampaign.finish_sent
               (length (filter (delivered env campaign_id
                  (EmailCampaign.begin_sending
                     (length (_get_target_subscribers c (db st))) c))
                  (_get_target_subscribers c (db st))))
               (now env)
               (EmailCampaign.begin_sending
                  (length (_get_target_subscribers c (db st))) c)).
  assert (Hsent : campaigns (db sent) !! campaign_id = Some c').
  { unfold sent. simpl. rewrite Hw. unfold after_send. simpl.
    by rewrite lookup_insert_eq. }
  assert (Hst : EmailCampaign.status c' ≠ EmailCampaign.draft) by done.
  destruct (perform_all_keeps_sent_campaign ops sent campaign_id c' Hsent Hst)
    as [Hlater Hcount].
  fold later in Hlater, Hcount.
  split; [by exists c'|]. split; [|done].
  unfold send_campaign.
  by rewrite (send_campaign_body_not_draft env' campaign_id _ c').
Qed.

(** Campaign 7 is sent; then it is duplicated, a visitor subscribes, a test
    mail is requested, subscriber 1 unsubscribes and the readers are
    deactivated and activated again.  A second send is refused. *)
Lemma sent_campaign_cannot_be_resent_witness :
  send_campaign Scenario.clerk 7
    (db (perform_all Scenario.afterwards
           (perform (SendCampaign Scenario.postman 7) Scenario.site)))
  = (mkResult false "Campaign October digest is not in draft status" None None,
     db (perform_all Scenario.afterwards
           (perform (SendCampaign Scenario.postman 7) Scenario.site)))
  ∧ email_sent_count 7
      (db (perform_all Scenario.afterwards
             (perform (SendCampaign Scenario.postman 7) Scenario.site))) = 4
  ∧ base.size
      (campaigns
         (db (perform_all Scenario.afterwards
                (perform (SendCampaign Scenario.postman 7) Scenario.site)))) = 2
  ∧ base.size
      (subscribers
         (db (perform_all Scenario.afterwards
                (perform (SendCampaign Scenario.postman 7) Scenario.site)))) = 7.
Proof.
  destruct (sent_campaign_cannot_be_resent Scenario.postman Scenario.clerk 7
              Scenario.site (Scenario.to_all EmailCampaign.draft) Scenario.afterwards)
    as (_ & Hrefused & Hcount); [reflexivity | reflexivity |].
  split; [exact Hrefused|]. split; [rewrite Hcount; by vm_compute|].
  split; by vm_compute.
Defined.

(** ** The public interface on a server that can fail *)

Lemma execute_run (server : Server) (s : Statement) (w : World) :
  execute server s w
    = match server s with
      | Some msg => (inl (DatabaseError msg), w)
      | None => (inr (), w)
      end.
Proof. unfold execute. by destruct (server s). Qed.

Section SendLoopOn.
Context (server : Server) (env : Env) (campaign_id : nat) (campaign : EmailCampaign.t).

Lemma send_loop_on_cons p rest n w :
  send_loop_on server env campaign_id campaign (p :: rest) n w =
    if decide (delivered env campaign_id campaign p) then
      send_loop_on server env campaign_id campaign rest (n + 1)
        (mkWorld (campaigns w)
           (if decide (credited server p) then credit (subscribers w) p else subscribers w)
           (activities w ++ [activity_row env campaign_id campaign p]))
    else send_loop_on server env campaign_id campaign rest n w.
Proof.
  destruct p as [pk s].
  destruct (decide (delivered env campaign_id campaign (pk, s))) as [[Ht Hl]|Hno];
    unfold delivered, activity_row in *; simpl in *;
    unfold bind at 1, try_except at 1, bind at 1;
    unfold _send_email_to_subscriber, try_except, bind, email_send,
      NewsletterActivity_objects_create, raise, ret; simpl.
  - rewrite Ht, Hl. rewrite execute_run.
    destruct (decide (credited server (pk, s))) as [Hc|Hc]; unfold credited in Hc; simpl in Hc.
    + by rewrite Hc.
    + destruct (server (UpdateSubscriber pk _)); [done | congruence].
  - destruct (transport env (build_email env campaign s)) eqn:Ht; simpl; [done|].
    destruct (ledger_insert env _) eqn:Hl; simpl; [done|].
    by destruct Hno.
Qed.

(** The loop never raises.  It counts and logs the recipients whose delivery
    succeeded, and credits those of them whose UPDATE the server executes. *)
Lemma send_loop_on_spec rows n w :
  send_loop_on server env campaign_id campaign rows n w =
    (inr (n + length (filter (delivered env campaign_id campaign) rows)),
     mkWorld (campaigns w)
       (foldl credit (subscribers w)
          (filter (credited server) (filter (delivered env campaign_id campaign) rows)))
       (activities w ++
          (activity_row env campaign_id campaign
             <$> filter (delivered env campaign_id campaign) rows))).
Proof.
  revert n w. induction rows as [|p rest IH]; intros n w.
  - simpl. unfold ret. rewrite Nat.add_0_r, app_nil_r. by destruct w.
  - rewrite send_loop_on_cons, (filter_cons (delivered env campaign_id campaign)).
    destruct (decide (delivered env campaign_id campaign p)).
    + rewrite IH. simpl. rewrite <- app_assoc. simpl.
      rewrite (filter_cons (credited server)).
      destruct (decide (credited server p)); simpl; do 2 f_equal; lia.
    + by rewrite IH.
Qed.

End SendLoopOn.

Section SendCampaignOn.
Context (server : Server) (env : Env) (campaign_id : nat) (w : World).

Lemma send_campaign_body_on_refused msg :
  server (SelectCampaign campaign_id) = Some msg →
  send_campaign_body_on server env campaign_id w = (inl (DatabaseError msg), w).
Proof.
  intros Hsel. unfold send_campaign_body_on, bind. by rewrite execute_run, Hsel.
Qed.

Lemma send_campaign_body_on_not_found :
  server (SelectCampaign campaign_id) = None →
  campaigns w !! campaign_id = None →
  send_campaign_body_on server env campaign_id w = (inl DoesNotExist, w).
Proof.
  intros Hsel Hget. unfold send_campaign_body_on, bind, EmailCampaign_objects_get.
  by rewrite execute_run, Hsel, Hget.
Qed.

Lemma send_campaign_body_on_not_draft c :
  server (SelectCampaign campaign_id) = None →
  campaigns w !! campaign_id = Some c →
  EmailCampaign.status c ≠ EmailCampaign.draft →
  send_campaign_body_on server env campaign_id w
    = (inl (ValueError (not_draft_message c)), w).
Proof.
  intros Hsel Hget Hst.
  unfold send_campaign_body_on, bind, EmailCampaign_objects_get.
  rewrite execute_run, Hsel, Hget. by rewrite bool_decide_eq_true_2.
Qed.

(** A stored draft: the block, statement by statement. *)
Lemma send_campaign_body_on_draft c :
  server (SelectCampaign campaign_id) = None →
  campaigns w !! campaign_id = Some c →
  EmailCampaign.status c = EmailCampaign.draft →
  let audience := _get_target_subscribers c w in
  let sending := EmailCampaign.begin_sending (length audience) c in
  let ok := filter (delivered env campaign_id sending) audience in
  let finished := EmailCampaign.finish_sent (length ok) (now env) sending in
  let readers := foldl credit (subscribers w) (filter (credited server) ok) in
  let ledger := (activities w ++ (activity_row env campaign_id sending <$> ok))%list in
  send_campaign_body_on server env campaign_id w =
    match (if EmailCampaign.send_to_all c then None
           else match server (ExistsTargetCategories campaign_id) with
                | Some msg => Some msg
                | None => server (ExistsTargetSubscribers campaign_id)
                end) with
    | Some msg => (inl (DatabaseError msg), w)
    | None =>
    match server (ExistsAudience campaign_id) with
    | Some msg => (inl (DatabaseError msg), w)
    | None =>
    if decide (audience = []) then (inl (ValueError no_subscribers_message), w)
    else
    match server (CountAudience campaign_id) with
    | Some msg => (inl (DatabaseError msg), w)
    | None =>
    match server (UpdateCampaign campaign_id sending) with
    | Some msg => (inl (DatabaseError msg), w)
    | None =>
    match server (SelectAudience campaign_id) with
    | Some msg =>
        (inl (DatabaseError msg),
         mkWorld (<[campaign_id := sending]> (campaigns w)) (subscribers w)
                 (activities w))
    | None =>
    match server (UpdateCampaign campaign_id finished) with
    | Some msg =>
        (inl (DatabaseError msg),
         mkWorld (<[campaign_id := sending]> (campaigns w)) readers ledger)
    | None =>
        (inr (mkResult true
                ("Campaign sent to " +:+ pretty (length ok) +:+ " subscribers")
                (Some (length ok)) (Some (length audience))),
         mkWorld (<[campaign_id := finished]> (campaigns w)) readers ledger)
    end end end end end end.
Proof.
  intros Hsel Hget Hst audience sending ok finished readers ledger.
  unfold send_campaign_body_on.
  unfold bind at 1. rewrite execute_run, Hsel.
  unfold bind at 1, EmailCampaign_objects_get. rewrite Hget.
  rewrite bool_decide_eq_false_2 by (by intros []).
  assert (Htarget :
    _get_target_subscribers_on server campaign_id c w
    = match (if EmailCampaign.send_to_all c then None
             else match server (ExistsTargetCategories campaign_id) with
                  | Some msg => Some msg
                  | None => server (ExistsTargetSubscribers campaign_id)
                  end) with
      | Some msg => (inl (DatabaseError msg), w)
      | None => (inr (_get_target_subscribers c), w)
      end).
  { unfold _get_target_subscribers_on.
    destruct (EmailCampaign.send_to_all c); simpl; unfold bind, ret; [done|].
    rewrite !execute_run.
    destruct (server (ExistsTargetCategories campaign_id)); [done|].
    rewrite execute_run.
    by destruct (server (ExistsTargetSubscribers campaign_id)). }
  unfold bind at 1. rewrite Htarget. clear Htarget.
  destruct (if EmailCampaign.send_to_all c then None else _) as [msg|]; [done|].
  unfold bind at 1. rewrite execute_run.
  destruct (server (ExistsAudience campaign_id)) as [msg|]; [done|].
  unfold bind at 1, query at 1. fold audience.
  destruct (decide (audience = [])) as [Hempty|Hne].
  { by rewrite bool_decide_eq_false_2 by (by intros []). }
  rewrite bool_decide_eq_true_2 by done. simpl.
  unfold bind at 1. rewrite execute_run.
  destruct (server (CountAudience campaign_id)) as [msg|]; [done|].
  unfold bind at 1, query at 1. fold audience. fold sending.
  unfold bind at 1. rewrite execute_run.
  destruct (server (UpdateCampaign campaign_id sending)) as [msg|]; [done|].
  unfold bind at 1, campaign_save at 1.
  unfold bind at 1. rewrite execute_run.
  destruct (server (SelectAudience campaign_id)) as [msg|]; [done|].
  unfold bind at 1, query at 1.
  rewrite (audience_frame c w
             (mkWorld (<[campaign_id := sending]> (campaigns w)) (subscribers w)
                      (activities w))) by done.
  fold audience.
  unfold bind at 1. rewrite send_loop_on_spec. simpl.
  fold ok. fold finished.
  unfold bind at 1. rewrite execute_run.
  destruct (server (UpdateCampaign campaign_id finished)) as [msg|]; [done|].
  unfold bind, campaign_save, ret. simpl.
  by rewrite insert_insert_eq.
Qed.

End SendCampaignOn.

Lemma first_refusal_None (server : Server) (statements : list Statement) :
  first_refusal server statements = None
  ↔ Forall (λ s, server s = None) statements.
Proof.
  induction statements as [|s rest IH]; simpl.
  - split; [constructor | done].
  - rewrite Forall_cons. destruct (server s); [|tauto].
    split; [done | by intros [? _]].
Qed.

Lemma first_refusal_Some (server : Server) before s after msg :
  Forall (λ s, server s = None) before → server s = Some msg →
  first_refusal server (before ++ s :: after) = Some msg.
Proof.
  intros Hbefore Hs. induction Hbefore as [|s0 before Hs0 _ IH]; simpl.
  - by rewrite Hs.
  - by rewrite Hs0.
Qed.

Lemma filter_all {A} (P : A → Prop) `{!∀ x, Decision (P x)} (l : list A) :
  (∀ x, P x) → filter P l = l.
Proof.
  intros HP. induction l as [|x l IH]; [done|].
  rewrite filter_cons_True by done. by rewrite IH.
Qed.

(** The handler turns what the block did into what the method returns. *)
Lemma except_clauses_run (block : M Result) (w : World) :
  except_clauses block w = (inr (report (block w)).1, (report (block w)).2).
Proof.
  unfold except_clauses, try_except, report, ret.
  by destruct (block w) as [[[]|r] w'].
Qed.

(** A send of a stored draft with somebody to send to, on any server: the
    way the call ends is decided by the first statement that fails. *)
Lemma send_campaign_on_draft server env campaign_id w c :
  campaigns w !! campaign_id = Some c →
  EmailCampaign.status c = EmailCampaign.draft →
  _get_target_subscribers c w ≠ [] →
  let audience := _get_target_subscribers c w in
  let sending := EmailCampaign.begin_sending (length audience) c in
  let ok := filter (delivered env campaign_id sending) audience in
  let finished := EmailCampaign.finish_sent (length ok) (now env) sending in
  let readers := foldl credit (subscribers w) (filter (credited server) ok) in
  let ledger := (activities w ++ (activity_row env campaign_id sending <$> ok))%list in
  send_campaign_on server env campaign_id w =
    match first_refusal server
            (statements_before_sending campaign_id c (length audience)) with
    | Some msg => (inr (mkResult false msg None None), w)
    | None =>
    match server (SelectAudience campaign_id) with
    | Some msg =>
        (inr (mkResult false msg None None),
         mkWorld (<[campaign_id := sending]> (campaigns w)) (subscribers w)
                 (activities w))
    | None =>
    match server (UpdateCampaign campaign_id finished) with
    | Some msg =>
        (inr (mkResult false msg None None),
         mkWorld (<[campaign_id := sending]> (campaigns w)) readers ledger)
    | None =>
        (inr (mkResult true
                ("Campaign sent to " +:+ pretty (length ok) +:+ " subscribers")
                (Some (length ok)) (Some (length audience))),
         mkWorld (<[campaign_id := finished]> (campaigns w)) readers ledger)
    end end end.
Proof.
  intros Hget Hst Hne audience sending ok finished readers ledger.
  unfold send_campaign_on. rewrite except_clauses_run.
  unfold statements_before_sending. simpl.
  destruct (server (SelectCampaign campaign_id)) as [msg|] eqn:Hsel.
  { by rewrite (send_campaign_body_on_refused _ _ _ _ msg). }
  rewrite (send_campaign_body_on_draft server env campaign_id w c) by done.
  fold audience. fold sending. fold ok. fold finished. fold readers. fold ledger.
  destruct (EmailCampaign.send_to_all c); simpl.
  - destruct (server (ExistsAudience campaign_id)); [done|].
    rewrite decide_False by done.
    destruct (server (CountAudience campaign_id)); [done|].
    destruct (server (UpdateCampaign campaign_id sending)); [done|].
    destruct (server (SelectAudience campaign_id)); [done|].
    by destruct (server (UpdateCampaign campaign_id finished)).
  - destruct (server (ExistsTargetCategories campaign_id)); [done|].
    destruct (server (ExistsTargetSubscribers campaign_id)); [done|].
    destruct (server (ExistsAudience campaign_id)); [done|].
    rewrite decide_False by done.
    destruct (server (CountAudience campaign_id)); [done|].
    destruct (server (UpdateCampaign campaign_id sending)); [done|].
    destruct (server (SelectAudience campaign_id)); [done|].
    by destruct (server (UpdateCampaign campaign_id finished)).
Qed.

(** On a server that executes every statement the block is the block of the
    method above. *)
Lemma send_campaign_body_on_reliable server env campaign_id w :
  (∀ s, server s = None) →
  send_campaign_body_on server env campaign_id w = send_campaign_body env campaign_id w.
Proof.
  intros Hsrv.
  destruct (campaigns w !! campaign_id) as [c|] eqn:Hget.
  - destruct (decide (EmailCampaign.status c = EmailCampaign.draft)) as [Hst|Hst].
    + rewrite (send_campaign_body_on_draft server env campaign_id w c) by done.
      rewrite !Hsrv.
      assert ((if EmailCampaign.send_to_all c then None else None)
              = (None : option string)) as -> by (by destruct (EmailCampaign.send_to_all c)).
      destruct (decide (_get_target_subscribers c w = [])) as [Hempty|Hne].
      * by rewrite (send_campaign_body_empty env _ _ c).
      * rewrite (send_campaign_body_sent env _ _ c) by done.
        rewrite (filter_all (credited server)); [done|]. intros p. apply Hsrv.
    + rewrite (send_campaign_body_on_not_draft server env campaign_id w c) by done.
      by rewrite (send_campaign_body_not_draft env _ _ c).
  - rewrite send_campaign_body_on_not_found by done.
    by rewrite send_campaign_body_not_found.
Qed.

(** [send_test_email] on any server: the block raises whatever happens, and
    nothing is written. *)
Lemma send_test_email_body_on_raises server env campaign_id test_email w :
  ∃ e, send_test_email_body_on server env campaign_id test_email w = (inl e, w)
       ∧ (∀ msg, server (SelectCampaign campaign_id) = Some msg → e = DatabaseError msg)
       ∧ (server (SelectCampaign campaign_id) = None →
          campaigns w !! campaign_id = None → e = DoesNotExist)
       ∧ ((∀ s, server s = None) →
          send_test_email_body env campaign_id test_email w = (inl e, w)).
Proof.
  unfold send_test_email_body_on, send_test_email_body, bind, EmailCampaign_objects_get.
  rewrite execute_run.
  destruct (server (SelectCampaign campaign_id)) as [msg|] eqn:Hsel.
  { eexists. split; [done|]. split; [by intros ? [= <-]|]. split; [done|].
    intros Hsrv. rewrite Hsrv in Hsel. done. }
  destruct (campaigns w !! campaign_id) as [c|]; [|by eexists].
  destruct (send_to_unsaved_subscriber_raises env campaign_id c
              (NewsletterSubscriber.new test_email "Test" "User") w) as [e ->].
  by exists e.
Qed.

(** C10: the public methods are total and report every failure, on every
    server, transport and ledger.  Neither method lets an exception out: each
    returns a result dictionary, which has [success = False] and a message
    whenever the [try] block raised ([Campaign not found] for
    [DoesNotExist], the text of the exception otherwise), and
    [success = True] only when the block ran to its [return];
    [send_test_email] never gets that far.  An unknown campaign id, a
    campaign that is not a draft and a failing SELECT of the campaign are
    reported with the database untouched.  For errors raised in the middle
    of a send, the call ends at the first statement that fails: before the
    first write, with the database untouched; at the fetch of the audience,
    with the campaign left in status [sending]; at the last UPDATE, with the
    mails sent and logged and the campaign still in status [sending]; each
    time with [success = False] and the message of the error.  A failing
    UPDATE of a subscriber is caught in the loop and does not fail the call.
    On a server that executes every statement the two methods are
    [send_campaign] and [send_test_email] as modelled above. *)
Theorem public_methods_always_report server env campaign_id test_email w :
  (∃ r, send_campaign_on server env campaign_id w
          = (inr r, (send_campaign_body_on server env campaign_id w).2)
        ∧ match (send_campaign_body_on server env campaign_id w).1 with
          | inr res => r = res ∧ success r = true
          | inl DoesNotExist => r = mkResult false "Campaign not found" None None
          | inl e => r = mkResult false (str e) None None
          end)
  ∧ (∃ msg, send_test_email_on server env campaign_id test_email w
              = (inr (mkResult false msg None None), w))
  ∧ ((∀ s, server s = None) →
     send_campaign_on server env campaign_id w
       = (inr (send_campaign env campaign_id w).1, (send_campaign env campaign_id w).2)
     ∧ send_test_email_on server env campaign_id test_email w
       = (inr (send_test_email env campaign_id test_email w).1,
          (send_test_email env campaign_id test_email w).2))
  ∧ (∀ msg, server (SelectCampaign campaign_id) = Some msg →
       send_campaign_on server env campaign_id w
         = (inr (mkResult false msg None None), w)
       ∧ send_test_email_on server env campaign_id test_email w
         = (inr (mkResult false msg None None), w))
  ∧ (server (SelectCampaign campaign_id) = None →
     campaigns w !! campaign_id = None →
     send_campaign_on server env campaign_id w
       = (inr (mkResult false "Campaign not found" None None), w)
     ∧ send_test_email_on server env campaign_id test_email w
       = (inr (mkResult false "Campaign not found" None None), w))
  ∧ (∀ c, server (SelectCampaign campaign_id) = None →
       campaigns w !! campaign_id = Some c →
       EmailCampaign.status c ≠ EmailCampaign.draft →
       send_campaign_on server env campaign_id w
         = (inr (mkResult false (not_draft_message c) None None), w))
  ∧ (∀ c, campaigns w !! campaign_id = Some c →
       EmailCampaign.status c = EmailCampaign.draft →
       _get_target_subscribers c w ≠ [] →
       let audience := _get_target_subscribers c w in
       let sending := EmailCampaign.begin_sending (length audience) c in
       let ok := filter (delivered env campaign_id sending) audience in
       let finished := EmailCampaign.finish_sent (length ok) (now env) sending in
       let readers := foldl credit (subscribers w) (filter (credited server) ok) in
       let ledger :=
         (activities w ++ (activity_row env campaign_id sending <$> ok))%list in
       send_campaign_on server env campaign_id w =
         match first_refusal server
                 (statements_before_sending campaign_id c (length audience)) with
         | Some msg => (inr (mkResult false msg None None), w)
         | None =>
         match server (SelectAudience campaign_id) with
         | Some msg =>
             (inr (mkResult false msg None None),
              mkWorld (<[campaign_id := sending]> (campaigns w)) (subscribers w)
                      (activities w))
         | None =>
         match server (UpdateCampaign campaign_id finished) with
         | Some msg =>
             (inr (mkResult false msg None None),
              mkWorld (<[campaign_id := sending]> (campaigns w)) readers ledger)
         | None =>
             (inr (mkResult true
                     ("Campaign sent to " +:+ pretty (length ok) +:+ " subscribers")
                     (Some (length ok)) (Some (length audience))),
              mkWorld (<[campaign_id := finished]> (campaigns w)) readers ledger)
         end end end).
Proof.
  destruct (send_test_email_body_on_raises server env campaign_id test_email w)
    as (e & Htest & Htest_refused & Htest_missing & Htest_reliable).
  assert (Htest_on : send_test_email_on server env campaign_id test_email w
                     = (inr (report (inl e, w)).1, w)).
  { unfold send_test_email_on. by rewrite except_clauses_run, Htest, report_raise. }
  split; [|split; [|split; [|split; [|split; [|split]]]]].
  - unfold send_campaign_on. rewrite except_clauses_run.
    destruct (send_campaign_body_on server env campaign_id w) as [[e0|r] w'] eqn:Hbody;
      cbn [fst snd].
    + rewrite report_raise. eexists. split; [done|]. by destruct e0.
    + exists r. split; [done|]. split; [done|].
      destruct (server (SelectCampaign campaign_id)) as [msg|] eqn:Hsel.
      { by rewrite (send_campaign_body_on_refused _ _ _ _ msg) in Hbody. }
      destruct (campaigns w !! campaign_id) as [c|] eqn:Hget.
      * destruct (decide (EmailCampaign.status c = EmailCampaign.draft)) as [Hst|Hst].
        -- rewrite (send_campaign_body_on_draft server env campaign_id w c) in Hbody
             by done.
           repeat (case_match; try done); by injection Hbody as <- _.
        -- by rewrite (send_campaign_body_on_not_draft server env campaign_id w c) in Hbody.
      * by rewrite send_campaign_body_on_not_found in Hbody.
  - rewrite Htest_on, report_raise. eauto.
  - intros Hsrv. split.
    + unfold send_campaign_on, send_campaign.
      by rewrite except_clauses_run, send_campaign_body_on_reliable.
    + rewrite Htest_on. unfold send_test_email.
      by rewrite (Htest_reliable Hsrv), report_raise.
  - intros msg Hsel. split.
    + unfold send_campaign_on.
      by rewrite except_clauses_run, (send_campaign_body_on_refused _ _ _ _ msg).
    + by rewrite Htest_on, (Htest_refused msg Hsel).
  - intros Hsel Hget. split.
    + unfold send_campaign_on.
      by rewrite except_clauses_run, send_campaign_body_on_not_found.
    + by rewrite Htest_on, (Htest_missing Hsel Hget).
  - intros c Hsel Hget Hst. unfold send_campaign_on.
    by rewrite except_clauses_run,
      (send_campaign_body_on_not_draft server env campaign_id w c).
  - intros c Hget Hst Hne. by apply send_campaign_on_draft.
Qed.

(** Campaign 7 goes to five readers; the transport refuses the third and the
    server fails the UPDATE of the second and, at the end, the UPDATE that
    would mark the campaign sent.  The call returns the failure dictionary
    with the server's message; four mails went out and are logged, readers
    1, 4 and 5 are credited, and the campaign is left in status [sending]. *)
Lemma public_methods_always_report_witness :
  (send_campaign_on Scenario.flaky Scenario.postman 7 Scenario.draft_world).1
    = inr (mkResult false "server closed the connection unexpectedly" None None)
  ∧ (EmailCampaign.status
       <$> campaigns (send_campaign_on Scenario.flaky Scenario.postman 7
                        Scenario.draft_world).2 !! 7) = Some EmailCampaign.sending
  ∧ email_sent_count 7
      (send_campaign_on Scenario.flaky Scenario.postman 7 Scenario.draft_world).2 = 4
  ∧ (NewsletterSubscriber.total_emails_sent
       <$> subscribers (send_campaign_on Scenario.flaky Scenario.postman 7
                          Scenario.draft_world).2 !! 1) = Some 1
  ∧ (NewsletterSubscriber.total_emails_sent
       <$> subscribers (send_campaign_on Scenario.flaky Scenario.postman 7
                          Scenario.draft_world).2 !! 2) = Some 0.
Proof.
  destruct (public_methods_always_report Scenario.flaky Scenario.postman 7
              "qa@example.com" Scenario.draft_world) as (_ & _ & _ & _ & _ & _ & Hsend).
  rewrite (Hsend (Scenario.to_all EmailCampaign.draft));
    [| reflexivity | reflexivity | by vm_compute].
  repeat split; by vm_compute.
Defined.

(** The same send on a server where only the UPDATE of subscriber 2 fails:
    the call succeeds and counts four mails; subscriber 2 was sent the mail
    and is in the ledger, but is not credited. *)
Example failed_subscriber_update_is_swallowed :
  send_campaign_on Scenario.deadlocked Scenario.postman 7 Scenario.draft_world
    = (inr (mkResult true "Campaign sent to 4 subscribers" (Some 4) (Some 5)),
       (send_campaign_on Scenario.deadlocked Scenario.postman 7 Scenario.draft_world).2)
  ∧ length (rows_of_subscriber 2
              (send_campaign_on Scenario.deadlocked Scenario.postman 7
                 Scenario.draft_world).2) = 1
  ∧ (NewsletterSubscriber.total_emails_sent
       <$> subscribers (send_campaign_on Scenario.deadlocked Scenario.postman 7
                          Scenario.draft_world).2 !! 2) = Some 0.
Proof. repeat split; by vm_compute. Qed.
